(** * SciToolHub scoring core: normalisation, domain classification,
      README scoring, composite scores and benchmark fusion.

    The development embeds the scoring functions of
    [src/score_tools.py], [src/score_tools_v2.py] and
    [final/merge_scores_with_bench.py].

    Numbers.  A float64 cell is modelled as a rational with an explicit
    not-a-number value: arithmetic is exact rational arithmetic, [NaN]
    propagates as in numpy, and there are no infinities, so
    [np.isfinite x] is "x is not NaN".  A pandas or numpy column is a list
    of such cells; a missing or unparsable entry is [NaN], which is what
    [pd.to_numeric(..., errors="coerce")] produces.

    Text.  A Python [str] is modelled as a [string] of code points below
    256. *)

From Stdlib Require Import QArith Bool List String Ascii Arith Lia Lqa.
From Stdlib Require Import Sorted Permutation.
Import ListNotations.

Local Open Scope Q_scope.

(* ------------------------------------------------------------------ *)
(** ** Float cells and columns *)

Module Num.

Inductive fnum : Type :=
| Fin (q : Q)
| NaN.

Definition isfinite (x : fnum) : bool :=
  match x with Fin _ => true | NaN => false end.

Definition lift2 (f : Q -> Q -> Q) (x y : fnum) : fnum :=
  match x, y with
  | Fin a, Fin b => Fin (f a b)
  | _, _ => NaN
  end.

Definition fadd : fnum -> fnum -> fnum := lift2 Qplus.
Definition fsub : fnum -> fnum -> fnum := lift2 Qminus.
Definition fmul : fnum -> fnum -> fnum := lift2 Qmult.

(** Division: the model has no infinities, so a division by zero (which
    numpy answers with an infinity or a NaN) is [NaN]. *)
Definition fdiv (x y : fnum) : fnum :=
  match x, y with
  | Fin a, Fin b => if Qeq_bool b 0 then NaN else Fin (a / b)
  | _, _ => NaN
  end.

(** [x > y] on floats: false as soon as one side is NaN. *)
Definition fgtb (x y : fnum) : bool :=
  match x, y with
  | Fin a, Fin b => negb (Qle_bool a b)
  | _, _ => false
  end.

(** [x == y] on floats: NaN equals nothing. *)
Definition feqb (x y : fnum) : bool :=
  match x, y with
  | Fin a, Fin b => Qeq_bool a b
  | _, _ => false
  end.

(** Same value: equal rationals, or both NaN. *)
Definition same (x y : fnum) : Prop :=
  match x, y with
  | Fin a, Fin b => a == b
  | NaN, NaN => True
  | _, _ => False
  end.

(** A cell that is a number of the closed unit interval. *)
Definition in_unit (x : fnum) : Prop :=
  match x with
  | Fin q => 0 <= q /\ q <= 1
  | NaN => False
  end.

Definition qmin (a b : Q) : Q := if Qle_bool a b then a else b.
Definition qmax (a b : Q) : Q := if Qle_bool a b then b else a.

(** The non-missing entries of a column, in order. *)
Fixpoint finite_values (xs : list fnum) : list Q :=
  match xs with
  | [] => []
  | Fin q :: r => q :: finite_values r
  | NaN :: r => finite_values r
  end.

Definition reduce (f : Q -> Q -> Q) (l : list Q) : fnum :=
  match l with
  | [] => NaN
  | x :: r => Fin (fold_left f r x)
  end.

(** [Series.min(skipna=True)] and [Series.max(skipna=True)]: NaN on an
    empty or all-missing column. *)
Definition pd_min (xs : list fnum) : fnum := reduce qmin (finite_values xs).
Definition pd_max (xs : list fnum) : fnum := reduce qmax (finite_values xs).

(** [Series.fillna(v)]. *)
Definition fillna (v : fnum) (xs : list fnum) : list fnum :=
  map (fun x => match x with Fin _ => x | NaN => v end) xs.

(** [np.zeros(n)], [np.zeros_like(arr)]. *)
Definition zeros (n : nat) : list fnum := repeat (Fin 0) n.
Definition zeros_like (arr : list fnum) : list fnum := zeros (List.length arr).

(** Insertion of a rational in an ascending list, and the sort it gives. *)
Fixpoint insert_asc (x : Q) (l : list Q) : list Q :=
  match l with
  | [] => [x]
  | y :: r => if Qle_bool x y then x :: l else y :: insert_asc x r
  end.

Definition sort_asc (l : list Q) : list Q := fold_right insert_asc [] l.

(** [Series.median(skipna=True)]: the middle value of the sorted
    non-missing entries, the mean of the two middle ones when their number
    is even, NaN when there is none. *)
Definition median_sorted (l : list Q) : fnum :=
  match l with
  | [] => NaN
  | _ =>
      let n := List.length l in
      if Nat.even n
      then Fin ((nth (n / 2 - 1) l 0 + nth (n / 2) l 0) / 2)
      else Fin (nth (n / 2) l 0)
  end.

Definition pd_median (xs : list fnum) : fnum :=
  median_sorted (sort_asc (finite_values xs)).

(** A column without missing cells. *)
Definition complete (xs : list fnum) : Prop :=
  Forall (fun x => isfinite x = true) xs.

(** The non-missing cells of a column all hold one value. *)
Definition all_equalb (xs : list fnum) : bool :=
  match finite_values xs with
  | [] => true
  | x :: r => forallb (Qeq_bool x) r
  end.

(** A column of counts: no cell is a negative number. *)
Definition nonneg_col (xs : list fnum) : Prop :=
  Forall (fun x => match x with Fin q => 0 <= q | NaN => True end) xs.


(** A cell that is missing or a number of the unit interval. *)
Definition unit_or_missing (x : fnum) : Prop := x = NaN \/ in_unit x.

End Num.
Import Num.

(** Python exceptions that the modelled code can raise. *)
Inductive exn : Type :=
| ValueError
| KeyError.

Inductive result (A : Type) : Type :=
| Ok (a : A)
| Raise (e : exn).
Arguments Ok {A} a.
Arguments Raise {A} e.

Definition bind {A B : Type} (r : result A) (k : A -> result B) : result B :=
  match r with
  | Ok a => k a
  | Raise e => Raise e
  end.

Notation "x <- r ;; k" := (bind r (fun x => k))
  (at level 61, r at next level, right associativity).

(** [np.nanmin] and [np.nanmax]: they raise [ValueError] on a zero-size
    array, and answer NaN on an all-NaN one. *)
Definition np_nanmin (arr : list fnum) : result fnum :=
  match arr with
  | [] => Raise ValueError
  | _ => Ok (pd_min arr)
  end.

Definition np_nanmax (arr : list fnum) : result fnum :=
  match arr with
  | [] => Raise ValueError
  | _ => Ok (pd_max arr)
  end.

(* ------------------------------------------------------------------ *)
(** ** Text: the [str] methods the scoring code uses *)

Module Text.

Local Open Scope string_scope.

Definition nl : ascii := ascii_of_nat 10.

(** [c.lower()] on the code points below 256: A-Z, and the capital
    letters of the Latin-1 block (all of 192..222 but the times sign). *)
Definition lower_char (c : ascii) : ascii :=
  let n := nat_of_ascii c in
  if (((65 <=? n) && (n <=? 90))
      || ((192 <=? n) && (n <=? 222) && negb (n =? 215)))%nat
  then ascii_of_nat (n + 32)
  else c.

Fixpoint lower (s : string) : string :=
  match s with
  | EmptyString => EmptyString
  | String c r => String (lower_char c) (lower r)
  end.

(** [k in t]: [k] occurs in [t] as a substring. *)
Fixpoint contains (k t : string) : bool :=
  if prefix k t then true
  else match t with
       | EmptyString => false
       | String _ r => contains k r
       end.

(** [any(k in t for k in kws)]. *)
Definition any_in (kws : list string) (t : string) : bool :=
  existsb (fun k => contains k t) kws.

(** [k] occurs in [t]: some text, then [k], then some text. *)
Definition occurs (k t : string) : Prop :=
  exists pre post, t = pre ++ k ++ post.

(** A keyword of [kws] occurs in [text], letter case apart. *)
Definition mentions (kws : list string) (text : string) : Prop :=
  exists k, In k kws /\ occurs k (lower text).

(** [c.isspace()], which is also the class [\s] of [re] on a [str]. *)
Definition isspace (c : ascii) : bool :=
  let n := nat_of_ascii c in
  (((9 <=? n) && (n <=? 13)) || ((28 <=? n) && (n <=? 32))
   || (n =? 133) || (n =? 160))%nat.

Fixpoint lstrip (s : string) : string :=
  match s with
  | EmptyString => EmptyString
  | String c r => if isspace c then lstrip r else s
  end.

Fixpoint rstrip (s : string) : string :=
  match s with
  | EmptyString => EmptyString
  | String c r =>
      match rstrip r with
      | EmptyString => if isspace c then EmptyString else String c EmptyString
      | r' => String c r'
      end
  end.

Definition strip (s : string) : string := rstrip (lstrip s).

(** Truth value of a [str]: non-empty. *)
Definition nonempty (s : string) : bool :=
  match s with EmptyString => false | String _ _ => true end.

(** [s.split(sep)] for a one-character separator. *)
Fixpoint split (sep : ascii) (s : string) : list string :=
  match s with
  | EmptyString => [EmptyString]
  | String c r =>
      if Ascii.eqb c sep then EmptyString :: split sep r
      else match split sep r with
           | h :: t => String c h :: t
           | [] => [String c EmptyString]
           end
  end.

(** [s.split(sep, 1)] when [sep in s]: the text before the first
    separator and the text after it; [None] when [sep] is not in [s]. *)
Fixpoint split_once (sep : ascii) (s : string) : option (string * string) :=
  match s with
  | EmptyString => None
  | String c r =>
      if Ascii.eqb c sep then Some (EmptyString, r)
      else match split_once sep r with
           | Some (a, b) => Some (String c a, b)
           | None => None
           end
  end.

(** [s[:n]]. *)
Definition take (n : nat) (s : string) : string := substring 0 n s.

(** If [p] is a prefix of [s], what follows it. *)
Fixpoint drop_prefix (p s : string) : option string :=
  match p, s with
  | EmptyString, _ => Some s
  | String a p', String b s' => if Ascii.eqb a b then drop_prefix p' s' else None
  | String _ _, EmptyString => None
  end.

(** The number of matches of [^#+] under [re.M]: the lines whose first
    character is a hash sign.  [bol] tells whether the scan is at the
    beginning of a line. *)
Fixpoint count_headings_from (bol : bool) (s : string) : nat :=
  match s with
  | EmptyString => O
  | String c r =>
      ((if bol && Ascii.eqb c "#" then 1 else 0)
       + count_headings_from (Ascii.eqb c nl) r)%nat
  end.

Definition count_headings (s : string) : nat := count_headings_from true s.

(** A match of [w\s+install] at the head of [s]. *)
Definition ws_install_at (w s : string) : bool :=
  match drop_prefix w s with
  | Some (String c r) => isspace c && prefix "install" (lstrip r)
  | _ => false
  end.

(** [re.search(r"(pip|conda)\s+install|requirements\.txt", s)]. *)
Fixpoint search_install_v2 (s : string) : bool :=
  if ws_install_at "pip" s || ws_install_at "conda" s
     || prefix "requirements.txt" s
  then true
  else match s with
       | EmptyString => false
       | String _ r => search_install_v2 r
       end.

(** [re.search(r"pip install|conda install|requirements\.txt", s)]. *)
Definition search_install_v1 (s : string) : bool :=
  contains "pip install" s || contains "conda install" s
  || contains "requirements.txt" s.




(** [os.path.basename] of a path with [/] separators: what follows the
    last separator. *)
Definition basename (path : string) : string :=
  last (split "/" path) EmptyString.

End Text.
Import Text.

(* ------------------------------------------------------------------ *)
(** ** Tables: dictionaries, column arithmetic, sorting of rows *)

Module Table.

(** A Python [dict] with [str] keys, in insertion order. *)
Definition dict (V : Type) : Type := list (string * V).

Fixpoint dict_get {V : Type} (k : string) (d : dict V) : option V :=
  match d with
  | [] => None
  | (k', v) :: r => if String.eqb k' k then Some v else dict_get k r
  end.

(** [d[k] = v]. *)
Fixpoint dict_set {V : Type} (k : string) (v : V) (d : dict V) : dict V :=
  match d with
  | [] => [(k, v)]
  | (k', v') :: r =>
      if String.eqb k' k then (k', v) :: r else (k', v') :: dict_set k v r
  end.

(** [d.setdefault(k, v)]. *)
Definition setdefault {V : Type} (k : string) (v : V) (d : dict V) : dict V :=
  match dict_get k d with
  | Some _ => d
  | None => d ++ [(k, v)]
  end.

Definition values {V : Type} (d : dict V) : list V := map snd d.

(** [d[k]], which raises [KeyError] on a missing key. *)
Definition getitem {V : Type} (d : dict V) (k : string) : result V :=
  match dict_get k d with
  | Some v => Ok v
  | None => Raise KeyError
  end.

(** [sum(xs)] on floats, from the integer 0. *)
Definition fsum (xs : list fnum) : fnum := fold_left fadd xs (Fin 0).

(** Truth value of a float: any value but zero (NaN is true). *)
Definition ftruthy (x : fnum) : bool :=
  match x with
  | Fin q => negb (Qeq_bool q 0)
  | NaN => true
  end.

(** Column arithmetic: a scalar times a column, and the cell by cell
    combination of two columns of one index. *)
Definition scale (w : fnum) (col : list fnum) : list fnum := map (fmul w) col.

Fixpoint zip_with {A B C : Type} (f : A -> B -> C) (xs : list A) (ys : list B)
  : list C :=
  match xs, ys with
  | x :: xs', y :: ys' => f x y :: zip_with f xs' ys'
  | _, _ => []
  end.

Definition col_add : list fnum -> list fnum -> list fnum := zip_with fadd.
Definition col_mul : list fnum -> list fnum -> list fnum := zip_with fmul.

(** [1.0 - col]. *)
Definition one_minus (col : list fnum) : list fnum := map (fsub (Fin 1)) col.

(** [sort_values(key, ascending=False)]: rows in descending order of
    their key, the rows without a key last.  The order that pandas gives
    to rows of equal key is not fixed; here they keep their order. *)
Definition before (x y : fnum) : bool :=
  match x, y with
  | Fin a, Fin b => Qle_bool b a
  | Fin _, NaN => true
  | NaN, Fin _ => false
  | NaN, NaN => true
  end.

Fixpoint insert_by {A : Type} (key : A -> fnum) (x : A) (l : list A) : list A :=
  match l with
  | [] => [x]
  | y :: r => if before (key x) (key y) then x :: l else y :: insert_by key x r
  end.

Definition sort_desc {A : Type} (key : A -> fnum) (l : list A) : list A :=
  fold_right (insert_by key) [] l.

(** In a frame sorted in descending order of [key], a row may stand
    right before another: its key is not lower, and a row without a key
    stands before no row that has one. *)
Definition in_order {A : Type} (key : A -> fnum) (x y : A) : Prop :=
  before (key x) (key y) = true.


(** [np.where(total > 0, closed / total, np.nan)] with
    [total = open + closed], row by row. *)
Definition rate_of_counts (open closed : list fnum) : list fnum :=
  zip_with (fun o c =>
              let total := fadd o c in
              if fgtb total (Fin 0) then fdiv c total else NaN)
           open closed.

End Table.
Import Table.

(* ------------------------------------------------------------------ *)
(** ** [src/score_tools.py]: the basic scorer *)

Module V1.

Local Open Scope string_scope.

Section Library.

(** [np.log1p] on a finite cell, and [float(v)] on a [str] ([None] when
    it raises): library functions, kept abstract. *)
Variable log1p : Q -> Q.
Variable py_float : string -> option fnum.

(** [np.log1p(np.maximum(x, 0))], cell by cell. *)
Definition _log1p_safe (x : list fnum) : list fnum :=
  map (fun c => match c with
                | Fin q => Fin (log1p (qmax q 0))
                | NaN => NaN
                end) x.

Definition _minmax_scale (arr : list fnum) : result (list fnum) :=
  lo <- np_nanmin arr ;;
  hi <- np_nanmax arr ;;
  if negb (isfinite lo) || negb (isfinite hi) || feqb hi lo
  then Ok (zeros_like arr)
  else Ok (map (fun x => fdiv (fsub x lo) (fsub hi lo)) arr).

Definition _normalize_series (s : list fnum) (method : string)
  : result (list fnum) :=
  let s := fillna (Fin 0) s in
  if String.eqb method "log1p_minmax" then _minmax_scale (_log1p_safe s)
  else if String.eqb method "minmax" then _minmax_scale s
  else _minmax_scale s.

(** The column that [_normalize_series] hands to the scaler: the column
    with its missing cells at 0, under the log transform for the log
    strategy. *)
Definition prepared (s : list fnum) (method : string) : list fnum :=
  if String.eqb method "log1p_minmax"
  then _log1p_safe (fillna (Fin 0) s)
  else fillna (Fin 0) s.

Definition default : dict fnum :=
  [ ("stars", Fin 0.25); ("commits", Fin 0.25); ("contributors", Fin 0.25);
    ("issues", Fin 0.15); ("staleness", Fin 0.10) ].

(** One turn of the loop over [arg.split(",")]. *)
Definition parse_item (out : dict fnum) (kv : string) : dict fnum :=
  if negb (nonempty (strip kv)) then out
  else match split_once "=" kv with
       | None => out
       | Some (k, v) =>
           match py_float v with
           | Some x => dict_set (strip k) x out
           | None => out
           end
       end.

(** The overrides read from the argument, before the defaults are merged. *)
Definition overrides (arg : string) : dict fnum :=
  fold_left parse_item (split "," arg) [].

(** The overrides with the defaults of the omitted keys. *)
Definition merged (arg : string) : dict fnum :=
  fold_left (fun out kv => setdefault (fst kv) (snd kv) out) default
            (overrides arg).

(** [sum(out.values()) or 1.0]. *)
Definition total (out : dict fnum) : fnum :=
  let s := fsum (values out) in
  if ftruthy s then s else Fin 1.

Definition parse_weights (arg : string) : dict fnum :=
  if negb (nonempty arg) then default
  else
    let out := merged arg in
    let tot := total out in
    map (fun kv => (fst kv, fdiv (snd kv) tot)) out.

(** The frame that [score_dataframe] receives from [compute_features],
    by columns.  [score_dataframe] asks whether the column
    [days_since_last_update] is there, so that column is optional; the
    others are read without a test. *)
Record frame : Type := {
  stars : list fnum;
  commits_window : list fnum;
  contributors : list fnum;
  issue_resolution_rate : list fnum;
  days_since_last_update : option (list fnum)
}.

(** [issues.fillna(med if np.isfinite(med) else 0.5)]. *)
Definition issues_filled (issues : list fnum) : list fnum :=
  let med := pd_median issues in
  fillna (if isfinite med then med else Fin 0.5) issues.

(** The value that fills the missing days: the median of the column when
    the column is in the frame, 180 otherwise. *)
Definition stale_fill (df : frame) : fnum :=
  match days_since_last_update df with
  | Some col => pd_median col
  | None => Fin 180
  end.

(** [pd.to_numeric(df["days_since_last_update"], ...).fillna(...)]: the
    column is read first, which raises [KeyError] when it is not there. *)
Definition stale_filled (df : frame) : result (list fnum) :=
  match days_since_last_update df with
  | None => Raise KeyError
  | Some col => Ok (fillna (stale_fill df) col)
  end.

Record scored : Type := {
  stars_n : list fnum;
  commits_n : list fnum;
  contributors_n : list fnum;
  issues_n : list fnum;
  staleness_n : list fnum;
  composite_score : list fnum
}.

(** The rows of a column in the order [idx]. *)
Definition take_rows (idx : list nat) (col : list fnum) : list fnum :=
  map (fun i => nth i col NaN) idx.

(** The row numbers in descending order of [keys]. *)
Definition argsort_desc (keys : list fnum) : list nat :=
  map fst (sort_desc snd (combine (seq 0 (List.length keys)) keys)).

Definition reorder (idx : list nat) (s : scored) : scored :=
  {| stars_n := take_rows idx (stars_n s);
     commits_n := take_rows idx (commits_n s);
     contributors_n := take_rows idx (contributors_n s);
     issues_n := take_rows idx (issues_n s);
     staleness_n := take_rows idx (staleness_n s);
     composite_score := take_rows idx (composite_score s) |}.

Definition score_dataframe (df : frame) (w : dict fnum) : result scored :=
  sn <- _normalize_series (stars df) "log1p_minmax" ;;
  cn <- _normalize_series (commits_window df) "log1p_minmax" ;;
  kn <- _normalize_series (contributors df) "log1p_minmax" ;;
  isn <- _minmax_scale (issues_filled (issue_resolution_rate df)) ;;
  stale <- stale_filled df ;;
  stale_n <- _minmax_scale stale ;;
  let stn := one_minus stale_n in
  w_stars <- getitem w "stars" ;;
  w_commits <- getitem w "commits" ;;
  w_contributors <- getitem w "contributors" ;;
  w_issues <- getitem w "issues" ;;
  w_staleness <- getitem w "staleness" ;;
  let comp :=
    col_add (col_add (col_add (col_add (scale w_stars sn) (scale w_commits cn))
                               (scale w_contributors kn))
                     (scale w_issues isn))
            (scale w_staleness stn) in
  let s := {| stars_n := sn; commits_n := cn; contributors_n := kn;
              issues_n := isn; staleness_n := stn; composite_score := comp |} in
  Ok (reorder (argsort_desc comp) s).

End Library.

(** A reader of plain decimal numerals ([12], [-0.75], [+3.5], [1.],
    [.5], [nan]), on which it answers what [float] answers.  It is used
    to run [parse_weights] on given texts; it does not read the other
    texts that [float] accepts (exponents, infinities, digit
    separators). *)
Definition digit (c : ascii) : option Z :=
  let n := nat_of_ascii c in
  if ((48 <=? n) && (n <=? 57))%nat then Some (Z.of_nat (n - 48)) else None.

(** The leading digits of [s]: their value after [acc], the power of ten
    of their number times [scale], how many they are, and the rest. *)
Fixpoint digits (acc : Z) (scale : positive) (count : nat) (s : string)
  : Z * positive * nat * string :=
  match s with
  | EmptyString => (acc, scale, count, EmptyString)
  | String c r =>
      match digit c with
      | Some d => digits (10 * acc + d)%Z (10 * scale)%positive (S count) r
      | None => (acc, scale, count, s)
      end
  end.

Definition unsigned_decimal (s : string) : option Q :=
  match digits 0 1 0 s with
  | (n, _, cn, EmptyString) =>
      if (0 <? cn)%nat then Some (inject_Z n) else None
  | (n, _, cn, String "." f) =>
      match digits 0 1 0 f with
      | (m, sc, cm, EmptyString) =>
          if (0 <? cn + cm)%nat then Some (inject_Z n + (m # sc)) else None
      | _ => None
      end
  | _ => None
  end.

Definition float_decimal (s : string) : option fnum :=
  let s := strip s in
  if String.eqb (lower s) "nan" then Some NaN
  else match s with
       | String "-" r => option_map (fun q => Fin (- q)) (unsigned_decimal r)
       | String "+" r => option_map Fin (unsigned_decimal r)
       | _ => option_map Fin (unsigned_decimal s)
       end.

(** *** Features *)


(** The issue resolution rate that [compute_features] derives when the
    frame has no such column, from the open and closed counts with their
    missing cells at 0. *)
Definition derived_issue_resolution_rate (open_issues closed_issues : list fnum)
  : list fnum :=
  let o := fillna (Fin 0) open_issues in
  let c := fillna (Fin 0) closed_issues in
  rate_of_counts o c.

(** A frame of [n] rows that has its column of days. *)
Definition well_formed (df : frame) (n : nat) : Prop :=
  List.length (stars df) = n
  /\ List.length (commits_window df) = n
  /\ List.length (contributors df) = n
  /\ List.length (issue_resolution_rate df) = n
  /\ exists col, days_since_last_update df = Some col /\ List.length col = n.


End V1.

(* ------------------------------------------------------------------ *)
(** ** [src/score_tools_v2.py]: the enriched scorer *)

Module V2.

Local Open Scope string_scope.

(** *** Module-level functions *)


Definition bio_keywords : list string :=
  ["protein"; "genome"; "rna"; "dna"; "sequence"; "bio"].
Definition chem_keywords : list string :=
  ["molecule"; "chem"; "drug"; "compound"; "binding"].
Definition material_keywords : list string :=
  ["material"; "crystal"; "alloy"; "polymer"].
Definition ml_keywords : list string :=
  ["deep"; "model"; "ai"; "ml"; "graph"; "transformer"].

Definition detect_domain (text : string) : string :=
  let text := lower text in
  if any_in bio_keywords text then "bio"
  else if any_in chem_keywords text then "chem"
  else if any_in material_keywords text then "material"
  else if any_in ml_keywords text then "ml"
  else "other".

(** [len(text)] as a float. *)
Definition len (s : string) : Q := inject_Z (Z.of_nat (String.length s)).

Definition count (n : nat) : Q := inject_Z (Z.of_nat n).

Definition readme_score (readme_text : string) : Q :=
  let text := lower readme_text in
  let length_score := qmin (len text / 5000) 1 in
  let section_score := count (count_headings readme_text) / 10 in
  let install_score := if search_install_v1 text then 1 else 0.3 in
  let citation_score :=
    if contains "citation" text || contains "doi" text then 1 else 0.2 in
  let total := 0.4 * length_score + 0.3 * section_score
               + 0.2 * install_score + 0.1 * citation_score in
  qmin total 1.

(** *** The functions local to [compute_scores] *)

(** [_to_num(s, default)] on a column. *)
Definition _to_num (s : list fnum) (default : fnum) : list fnum :=
  fillna default s.

Definition _minmax (x : list fnum) : list fnum :=
  let lo := pd_min x in
  let hi := pd_max x in
  if negb (isfinite lo) || negb (isfinite hi) || feqb hi lo
  then zeros (List.length x)
  else map (fun c => fdiv (fsub c lo) (fsub hi lo)) x.

Definition _normalize_series (s : list fnum) : list fnum :=
  _minmax (_to_num s (Fin 0)).

Definition _readme_score (text : string) : Q :=
  let t := lower text in
  let length_score := qmin (len t / 5000) 1 in
  let section_score := count (count_headings text) / 10 in
  let install_score := if search_install_v2 t then 1 else 0.3 in
  let citation_score :=
    if contains "citation" t || contains "doi" t then 1 else 0.2 in
  let total := 0.4 * length_score + 0.3 * section_score
               + 0.2 * install_score + 0.1 * citation_score in
  qmin (qmax total 0) 1.

Definition _detect_domain (text : string) : string :=
  let tt := lower text in
  if any_in bio_keywords tt then "bio"
  else if any_in chem_keywords tt then "chem"
  else if any_in material_keywords tt then "material"
  else if any_in ml_keywords tt then "ml"
  else "other".

(** *** [compute_scores] *)

(** The frame once its key columns are unified, by columns of one
    length: the state in which the normalisation finds it. *)
Record frame : Type := {
  repo : list string;
  description : list string;
  stars : list fnum;
  commits_window : list fnum;
  contributors : list fnum;
  issue_resolution_rate : list fnum;
  days_since_last_update : list fnum
}.

(** The columns of a frame have one length, the number of its rows. *)
Definition well_formed (df : frame) : Prop :=
  let n := List.length (repo df) in
  List.length (description df) = n
  /\ List.length (stars df) = n
  /\ List.length (commits_window df) = n
  /\ List.length (contributors df) = n
  /\ List.length (issue_resolution_rate df) = n
  /\ List.length (days_since_last_update df) = n.

Definition domain_weights : dict fnum :=
  [ ("bio", Fin 1); ("chem", Fin 0.95); ("material", Fin 0.9);
    ("ml", Fin 1.05); ("other", Fin 1) ].

(** [col.map(d)]: the value of each label in [d], missing when the label
    is not a key. *)
Definition map_dict (d : dict fnum) (col : list string) : list fnum :=
  map (fun k => match dict_get k d with Some v => v | None => NaN end) col.

(** The weighted sum of the seven signals of a row, as the enriched
    scheme writes it. *)
Definition weighted_sum (sn cn kn isn stn rs ci : fnum) : fnum :=
  fadd (fadd (fadd (fadd (fadd (fadd
    (fmul (Fin 0.20) sn) (fmul (Fin 0.15) cn)) (fmul (Fin 0.15) kn))
    (fmul (Fin 0.10) isn)) (fmul (Fin 0.10) stn))
    (fmul (Fin 0.15) rs)) (fmul (Fin 0.15) ci).

(** One scored candidate, as a row of the frame that is returned. *)
Record row : Type := {
  r_repo : string;
  stars_n : fnum;
  commits_n : fnum;
  contributors_n : fnum;
  issues_n : fnum;
  staleness_n : fnum;
  r_readme_score : fnum;
  r_ci_test_score : fnum;
  domain : string;
  domain_weight : fnum;
  composite_v2 : fnum
}.

Section Fetch.

(** [_fetch_readme_online]: the README text found online for a
    repository name, the empty text when there is none. *)
Variable _fetch_readme_online : string -> string.

(** The body of the loop over the rows, for one row: [None] when the
    repository name is blank (the row keeps its initial cells), else the
    README score and the domain. *)
Definition enrich (repo_cell desc_cell : string) : option (Q * string) :=
  let repo := strip repo_cell in
  if negb (nonempty repo) then None
  else
    let readme_text := _fetch_readme_online repo in
    let desc := desc_cell ++ " " ++ take 500 readme_text in
    Some (_readme_score readme_text, _detect_domain desc).

Definition readme_score_cell (repo_cell desc_cell : string) : fnum :=
  match enrich repo_cell desc_cell with
  | Some (s, _) => Fin s
  | None => Fin 0
  end.

Definition domain_cell (repo_cell desc_cell : string) : string :=
  match enrich repo_cell desc_cell with
  | Some (_, d) => d
  | None => "other"
  end.

(** The columns that [compute_scores] adds, before the final sort. *)
Record columns : Type := {
  c_stars_n : list fnum;
  c_commits_n : list fnum;
  c_contributors_n : list fnum;
  c_issues_n : list fnum;
  c_staleness_n : list fnum;
  c_readme_score : list fnum;
  c_ci_test_score : list fnum;
  c_domain : list string;
  c_domain_weight : list fnum;
  c_composite_v2 : list fnum
}.

(** [irr.fillna(med if np.isfinite(med) else 0.5)]. *)
Definition irr_filled (irr : list fnum) : list fnum :=
  let med := pd_median irr in
  fillna (if isfinite med then med else Fin 0.5) irr.

(** [stale.fillna(median if np.isfinite(median) else 180)]. *)
Definition stale_filled (stale : list fnum) : list fnum :=
  let med := pd_median stale in
  fillna (if isfinite med then med else Fin 180) stale.

Definition score_columns (df : frame) : columns :=
  let sn := _normalize_series (stars df) in
  let cn := _normalize_series (commits_window df) in
  let kn := _normalize_series (contributors df) in
  let isn := _minmax (irr_filled (issue_resolution_rate df)) in
  let stn := one_minus (_minmax (stale_filled (days_since_last_update df))) in
  let rs := zip_with readme_score_cell (repo df) (description df) in
  let ci := zeros (List.length (repo df)) in
  let dom := zip_with domain_cell (repo df) (description df) in
  let dw := fillna (Fin 1) (map_dict domain_weights dom) in
  let comp :=
    col_mul
      (col_add (col_add (col_add (col_add (col_add (col_add
         (scale (Fin 0.20) sn) (scale (Fin 0.15) cn)) (scale (Fin 0.15) kn))
         (scale (Fin 0.10) isn)) (scale (Fin 0.10) stn))
         (scale (Fin 0.15) rs)) (scale (Fin 0.15) ci))
      dw in
  {| c_stars_n := sn; c_commits_n := cn; c_contributors_n := kn;
     c_issues_n := isn; c_staleness_n := stn; c_readme_score := rs;
     c_ci_test_score := ci; c_domain := dom; c_domain_weight := dw;
     c_composite_v2 := comp |}.

(** Row [i] of the frame with its added columns. *)
Definition row_at (df : frame) (c : columns) (i : nat) : row :=
  {| r_repo := nth i (repo df) "";
     stars_n := nth i (c_stars_n c) NaN;
     commits_n := nth i (c_commits_n c) NaN;
     contributors_n := nth i (c_contributors_n c) NaN;
     issues_n := nth i (c_issues_n c) NaN;
     staleness_n := nth i (c_staleness_n c) NaN;
     r_readme_score := nth i (c_readme_score c) NaN;
     r_ci_test_score := nth i (c_ci_test_score c) NaN;
     domain := nth i (c_domain c) "";
     domain_weight := nth i (c_domain_weight c) NaN;
     composite_v2 := nth i (c_composite_v2 c) NaN |}.

Definition rows (df : frame) (c : columns) : list row :=
  map (row_at df c) (seq 0 (List.length (repo df))).

(** [compute_scores]: the scored rows in descending order of
    [composite_v2]. *)
Definition compute_scores (df : frame) : list row :=
  sort_desc composite_v2 (rows df (score_columns df)).

End Fetch.

(** *** More of the module and of [compute_scores] *)

Definition b2q (b : bool) : Q := if b then 1 else 0.

(** [ci_test_score]: [isdir] tells whether [repo_path] is a directory and
    [files] are the paths that the walk of it finds. *)
Definition ci_test_score (isdir : bool) (files : list string) : Q :=
  if negb isdir then 0
  else
    let ci_found :=
      existsb (fun f => contains ".github/workflows" f || contains "ci.yml" f
                        || contains "actions" f) files in
    let test_found :=
      existsb (fun f => contains "test" (lower (basename f))) files in
    0.6 * b2q test_found + 0.4 * b2q ci_found.






(** The issue resolution rate that [compute_scores] derives when the
    frame has no such column. *)
Definition derived_issue_resolution_rate (open_issues closed_issues : list fnum)
  : list fnum :=
  rate_of_counts (_to_num open_issues (Fin 0)) (_to_num closed_issues (Fin 0)).

Definition readme_url (repo_fullname branch : string) : string :=
  "https://raw.githubusercontent.com/" ++ repo_fullname ++ "/" ++ branch
  ++ "/README.md".

(** The loop of [_fetch_readme_online] over the branches.  [get] is the
    request of a URL: the decoded body, [None] when the request raises. *)
Fixpoint first_readme (get : string -> option string) (repo_fullname : string)
  (branches : list string) : string :=
  match branches with
  | [] => ""
  | branch :: r =>
      match get (readme_url repo_fullname branch) with
      | Some text =>
          if (50 <? String.length text)%nat then text
          else first_readme get repo_fullname r
      | None => first_readme get repo_fullname r
      end
  end.

Definition _fetch_readme_online (get : string -> option string)
  (repo_fullname : string) : string :=
  first_readme get repo_fullname ["main"; "master"].

End V2.

(* ------------------------------------------------------------------ *)
(** ** [final/merge_scores_with_bench.py]: fusion with the benchmark *)

Module Fusion.

Local Open Scope string_scope.

(** The JSON values a field of a benchmark record can hold. *)
Inductive json : Type :=
| JNull
| JBool (b : bool)
| JNum (q : Q)
| JStr (s : string).

(** One record of the benchmark file; a field is [None] when the record
    has no such key.  [it_elapsed_s] is [None] also for a JSON null. *)
Record item : Type := {
  it_name : option string;
  it_passed : option json;
  it_skipped : option json;
  it_elapsed_s : option Q
}.

(** [bool(it.get(k))]. *)
Definition py_bool (v : option json) : bool :=
  match v with
  | None => false
  | Some JNull => false
  | Some (JBool b) => b
  | Some (JNum q) => negb (Qeq_bool q 0)
  | Some (JStr s) => nonempty s
  end.

(** [it.get(k) is False]. *)
Definition is_False (v : option json) : bool :=
  match v with
  | Some (JBool false) => true
  | _ => false
  end.

Record bench_row : Type := {
  name : string;
  passed : option bool;
  skipped : bool;
  elapsed_s : fnum
}.

Definition load_item (it : item) : bench_row :=
  {| name := strip (match it_name it with Some s => s | None => "" end);
     passed := if is_False (it_skipped it)
               then Some (py_bool (it_passed it)) else None;
     skipped := py_bool (it_skipped it);
     elapsed_s := match it_elapsed_s it with Some q => Fin q | None => NaN end |}.

Definition load_bench (items : list item) : list bench_row :=
  map load_item items.

Definition alias : dict string :=
  [ ("biopython", "Bio"); ("mdanalysis", "MDAnalysis"); ("scikit-bio", "skbio") ].

(** [alias.get(x, x).lower()]. *)
Definition bench_key (x : string) : string :=
  lower (match dict_get x alias with Some a => a | None => x end).

Definition repo_to_key (repo : string) : string :=
  if contains "/" repo then lower (last (split "/" repo) "")
  else lower repo.

(** [b[b["skipped"]==False]]. *)
Definition non_skipped (b : list bench_row) : list bench_row :=
  filter (fun r => negb (skipped r)) b.

(** [1.0 if v else 0.0]. *)
Definition pass_of (v : option bool) : fnum :=
  match v with
  | Some true => Fin 1
  | _ => Fin 0
  end.

(** The latency column of the non-skipped records, from their elapsed
    times. *)
Definition latency_scores (elapsed : list fnum) : list fnum :=
  let lat := fillna (pd_max elapsed) elapsed in
  if negb (List.length lat =? 0)%nat && fgtb (pd_max lat) (Fin 0)
  then
    let span := if fgtb (pd_max lat) (pd_min lat)
                then fsub (pd_max lat) (pd_min lat) else Fin 1 in
    map (fun x => fsub (Fin 1) (fdiv (fsub x (pd_min lat)) span)) lat
  else repeat (Fin 0) (List.length lat).

(** A non-skipped record with its scores. *)
Record signal : Type := {
  key : string;
  pass_score : fnum;
  latency_score : fnum;
  bench_score : fnum
}.

Definition bench_signal (b : list bench_row) : list signal :=
  let bx := non_skipped b in
  let ps := map (fun r => pass_of (passed r)) bx in
  let ls := latency_scores (map elapsed_s bx) in
  let bs := col_add (scale (Fin 0.7) ps) (scale (Fin 0.3) ls) in
  zip_with (fun kp lb => {| key := fst kp; pass_score := snd kp;
                            latency_score := fst lb; bench_score := snd lb |})
           (combine (map (fun r => bench_key (name r)) bx) ps)
           (combine ls bs).

(** A row of the ranked file. *)
Record candidate : Type := {
  repo : string;
  composite_v2 : fnum
}.

(** [df.merge(bx, on="key", how="left")]: each candidate with each of the
    signals of its key, or once without a signal when there is none. *)
Definition merge_left (df : list candidate) (bx : list signal)
  : list (candidate * option signal) :=
  flat_map
    (fun c =>
       match filter (fun s => String.eqb (key s) (repo_to_key (repo c))) bx with
       | [] => [(c, None)]
       | ms => map (fun s => (c, Some s)) ms
       end) df.

Record final_row : Type := {
  f_repo : string;
  f_key : string;
  f_composite_v2 : fnum;
  f_bench_score : fnum;
  f_pass_score : fnum;
  f_latency_score : fnum;
  final_score : fnum
}.

Definition cell_of (s : option signal) (f : signal -> fnum) : fnum :=
  match s with Some x => f x | None => NaN end.

(** A merged row with its bench score filled and its final score. *)
Definition finalize (alpha beta : Q) (m : candidate * option signal) : final_row :=
  let c := fst m in
  let bench := match cell_of (snd m) bench_score with
               | Fin q => Fin q
               | NaN => Fin 0
               end in
  {| f_repo := repo c;
     f_key := repo_to_key (repo c);
     f_composite_v2 := composite_v2 c;
     f_bench_score := bench;
     f_pass_score := cell_of (snd m) pass_score;
     f_latency_score := cell_of (snd m) latency_score;
     final_score := fadd (fmul (Fin alpha) (composite_v2 c))
                         (fmul (Fin beta) bench) |}.

(** The body of [main] once the benchmark is loaded in the frame [b]. *)
Definition fuse (alpha beta : Q) (df : list candidate) (b : list bench_row)
  : list final_row :=
  sort_desc final_score
    (map (finalize alpha beta) (merge_left df (bench_signal b))).

(** [main]: the rows written, for the weights [alpha_repo] and
    [beta_bench] (0.7 and 0.3 unless given).  A frame built from no
    record has no column, so that reading its column [name] raises
    [KeyError]. *)
Definition main (alpha beta : Q) (df : list candidate) (items : list item)
  : result (list final_row) :=
  match load_bench items with
  | [] => Raise KeyError
  | b => Ok (fuse alpha beta df b)
  end.

Definition default_beta : Q := 0.3.


End Fusion.

(* ================================================================== *)
(** * Properties *)

(** ** Columns: minimum, maximum, rescaling *)

Module NumFacts.

Lemma qmin_le_l a b : qmin a b <= a.
Proof.
  unfold qmin. destruct (Qle_bool a b) eqn:E.
  - apply Qle_refl.
  - apply Qlt_le_weak, Qnot_le_lt. intro H.
    apply Qle_bool_iff in H. congruence.
Qed.

Lemma qmin_le_r a b : qmin a b <= b.
Proof.
  unfold qmin. destruct (Qle_bool a b) eqn:E.
  - now apply Qle_bool_iff.
  - apply Qle_refl.
Qed.

Lemma qmin_pick a b : qmin a b = a \/ qmin a b = b.
Proof. unfold qmin. destruct (Qle_bool a b); auto. Qed.

Lemma qmax_ge_l a b : a <= qmax a b.
Proof.
  unfold qmax. destruct (Qle_bool a b) eqn:E.
  - now apply Qle_bool_iff.
  - apply Qle_refl.
Qed.

Lemma qmax_ge_r a b : b <= qmax a b.
Proof.
  unfold qmax. destruct (Qle_bool a b) eqn:E.
  - apply Qle_refl.
  - apply Qlt_le_weak, Qnot_le_lt. intro H.
    apply Qle_bool_iff in H. congruence.
Qed.

Lemma qmax_pick a b : qmax a b = a \/ qmax a b = b.
Proof. unfold qmax. destruct (Qle_bool a b); auto. Qed.

Lemma fold_min_spec r : forall x,
  (fold_left qmin r x = x \/ In (fold_left qmin r x) r)
  /\ fold_left qmin r x <= x
  /\ Forall (fun q => fold_left qmin r x <= q) r.
Proof.
  induction r as [|a r IH]; intro x; simpl.
  - repeat split; auto. apply Qle_refl.
  - destruct (IH (qmin x a)) as (Hin & Hle & Hall).
    repeat split.
    + destruct Hin as [Hin|Hin]; [|now right; right].
      destruct (qmin_pick x a) as [E|E]; [left | right; left]; congruence.
    + eapply Qle_trans; [exact Hle | apply qmin_le_l].
    + constructor; auto.
      eapply Qle_trans; [exact Hle | apply qmin_le_r].
Qed.

Lemma fold_max_spec r : forall x,
  (fold_left qmax r x = x \/ In (fold_left qmax r x) r)
  /\ x <= fold_left qmax r x
  /\ Forall (fun q => q <= fold_left qmax r x) r.
Proof.
  induction r as [|a r IH]; intro x; simpl.
  - repeat split; auto. apply Qle_refl.
  - destruct (IH (qmax x a)) as (Hin & Hle & Hall).
    repeat split.
    + destruct Hin as [Hin|Hin]; [|now right; right].
      destruct (qmax_pick x a) as [E|E]; [left | right; left]; congruence.
    + eapply Qle_trans; [apply qmax_ge_l | exact Hle].
    + constructor; auto.
      eapply Qle_trans; [apply qmax_ge_r | exact Hle].
Qed.

Lemma in_finite_values q xs : In q (finite_values xs) <-> In (Fin q) xs.
Proof.
  induction xs as [|[p|] xs IH]; simpl.
  - tauto.
  - rewrite IH. split; intros [H|H]; auto; left; congruence.
  - rewrite IH. split; [auto | intros [H|H]; [discriminate | auto]].
Qed.

(** The minimum of a column is one of its cells and is below all of them. *)
Lemma pd_min_spec xs lo :
  pd_min xs = Fin lo ->
  In (Fin lo) xs /\ forall q, In (Fin q) xs -> lo <= q.
Proof.
  unfold pd_min, reduce. intro H.
  destruct (finite_values xs) as [|x r] eqn:E; [discriminate|].
  injection H as <-.
  destruct (fold_min_spec r x) as (Hin & Hle & Hall).
  split.
  - apply in_finite_values. rewrite E. simpl.
    destruct Hin as [->|Hin]; auto.
  - intros q Hq. apply in_finite_values in Hq. rewrite E in Hq.
    destruct Hq as [<-|Hq]; auto.
    rewrite Forall_forall in Hall. auto.
Qed.

Lemma pd_max_spec xs hi :
  pd_max xs = Fin hi ->
  In (Fin hi) xs /\ forall q, In (Fin q) xs -> q <= hi.
Proof.
  unfold pd_max, reduce. intro H.
  destruct (finite_values xs) as [|x r] eqn:E; [discriminate|].
  injection H as <-.
  destruct (fold_max_spec r x) as (Hin & Hle & Hall).
  split.
  - apply in_finite_values. rewrite E. simpl.
    destruct Hin as [->|Hin]; auto.
  - intros q Hq. apply in_finite_values in Hq. rewrite E in Hq.
    destruct Hq as [<-|Hq]; auto.
    rewrite Forall_forall in Hall. auto.
Qed.

Lemma length_zeros n : List.length (zeros n) = n.
Proof. apply repeat_length. Qed.

Lemma zeros_in_unit n : Forall in_unit (zeros n).
Proof.
  unfold zeros. induction n; simpl; constructor; auto.
  simpl. split; [apply Qle_refl | discriminate].
Qed.

Lemma fillna_complete q xs : complete (fillna (Fin q) xs).
Proof.
  unfold complete, fillna. rewrite Forall_map.
  apply Forall_forall. intros [p|] _; reflexivity.
Qed.

Lemma length_fillna v xs : List.length (fillna v xs) = List.length xs.
Proof. apply length_map. Qed.

(** One rescaled cell. *)
Lemma rescale_cell lo hi x :
  lo <= x -> x <= hi -> ~ hi == lo ->
  exists y, fdiv (fsub (Fin x) (Fin lo)) (fsub (Fin hi) (Fin lo)) = Fin y
            /\ 0 <= y /\ y <= 1.
Proof.
  intros H1 H2 H3.
  assert (Hpos : 0 < hi - lo).
  { destruct (Qlt_le_dec lo hi) as [L|L]; [lra|].
    exfalso. apply H3. lra. }
  simpl. destruct (Qeq_bool (hi - lo) 0) eqn:E.
  - apply Qeq_bool_iff in E. lra.
  - eexists. split; [reflexivity|]. split.
    + apply Qle_shift_div_l; [exact Hpos | lra].
    + apply Qle_shift_div_r; [exact Hpos | lra].
Qed.

(** The rescaling of a complete column between its minimum and its
    maximum stays in the unit interval. *)
Lemma rescale_in_unit xs lo hi :
  complete xs -> pd_min xs = Fin lo -> pd_max xs = Fin hi -> ~ hi == lo ->
  Forall in_unit (map (fun x => fdiv (fsub x (Fin lo)) (fsub (Fin hi) (Fin lo))) xs).
Proof.
  intros Hc Hlo Hhi Hne.
  destruct (pd_min_spec _ _ Hlo) as [_ Hmin].
  destruct (pd_max_spec _ _ Hhi) as [_ Hmax].
  rewrite Forall_map. apply Forall_forall. intros [x|] Hx.
  - destruct (rescale_cell lo hi x (Hmin _ Hx) (Hmax _ Hx) Hne)
      as (y & -> & Hy). exact Hy.
  - unfold complete in Hc. rewrite Forall_forall in Hc.
    specialize (Hc _ Hx). discriminate.
Qed.

End NumFacts.

(** ** The normaliser *)

Module NormalizerFacts.
Import NumFacts.

Lemma all_equalb_spec xs :
  all_equalb xs = true ->
  forall a b, In (Fin a) xs -> In (Fin b) xs -> a == b.
Proof.
  unfold all_equalb. intros H a b Ha Hb.
  apply in_finite_values in Ha. apply in_finite_values in Hb.
  destruct (finite_values xs) as [|x r]; [contradiction|].
  rewrite forallb_forall in H.
  assert (Hx : forall q, In q (x :: r) -> x == q).
  { intros q [<-|Hq]; [reflexivity|]. now apply Qeq_bool_iff, H. }
  rewrite <- (Hx a Ha), <- (Hx b Hb). reflexivity.
Qed.

(** The guard of the scalers fails only between two distinct finite
    bounds. *)
Lemma guard_false lo hi :
  negb (isfinite lo) || negb (isfinite hi) || feqb hi lo = false ->
  exists l h, lo = Fin l /\ hi = Fin h /\ ~ h == l.
Proof.
  destruct lo as [l|], hi as [h|]; simpl; try discriminate.
  intro H. exists l, h. repeat split.
  now apply Qeq_bool_neq.
Qed.

Lemma length_minmax x : List.length (V2._minmax x) = List.length x.
Proof.
  unfold V2._minmax.
  destruct (negb (isfinite (pd_min x)) || negb (isfinite (pd_max x))
            || feqb (pd_max x) (pd_min x)).
  - apply length_zeros.
  - apply length_map.
Qed.

Lemma minmax_in_unit x : complete x -> Forall in_unit (V2._minmax x).
Proof.
  intro Hc. unfold V2._minmax.
  destruct (negb (isfinite (pd_min x)) || negb (isfinite (pd_max x))
            || feqb (pd_max x) (pd_min x)) eqn:G.
  - apply zeros_in_unit.
  - destruct (guard_false _ _ G) as (l & h & Hl & Hh & Hne).
    rewrite Hl, Hh. now apply rescale_in_unit.
Qed.

Lemma minmax_all_equal x :
  all_equalb x = true -> V2._minmax x = zeros (List.length x).
Proof.
  intro H. unfold V2._minmax.
  destruct (pd_min x) as [lo|] eqn:Hlo; [|reflexivity].
  destruct (pd_max x) as [hi|] eqn:Hhi; [|reflexivity].
  destruct (pd_min_spec _ _ Hlo) as [Il _].
  destruct (pd_max_spec _ _ Hhi) as [Ih _].
  pose proof (all_equalb_spec _ H _ _ Ih Il) as E.
  apply Qeq_bool_iff in E. simpl. now rewrite E.
Qed.

(** On an array that has a cell, the scaler of the basic scorer
    computes what the scaler of the enriched one computes. *)
Lemma minmax_scale_nonempty arr :
  arr <> [] -> V1._minmax_scale arr = Ok (V2._minmax arr).
Proof.
  intro H. destruct arr as [|a arr]; [contradiction|].
  unfold V1._minmax_scale, V2._minmax, np_nanmin, np_nanmax, bind, zeros_like.
  destruct (negb (isfinite (pd_min (a :: arr)))
            || negb (isfinite (pd_max (a :: arr)))
            || feqb (pd_max (a :: arr)) (pd_min (a :: arr))); reflexivity.
Qed.

Lemma minmax_scale_empty : V1._minmax_scale [] = Raise ValueError.
Proof. reflexivity. Qed.

Section Log.
Variable log1p : Q -> Q.

Lemma length_log1p_safe x :
  List.length (V1._log1p_safe log1p x) = List.length x.
Proof. apply length_map. Qed.


Lemma nonempty_length (A : Type) (l : list A) :
  l <> [] <-> List.length l <> O.
Proof. destruct l; simpl; split; congruence. Qed.

Lemma normalize_series_prepared s method :
  V1._normalize_series log1p s method = V1._minmax_scale (V1.prepared log1p s method).
Proof.
  unfold V1._normalize_series, V1.prepared.
  destruct (String.eqb method "log1p_minmax"); [reflexivity|].
  destruct (String.eqb method "minmax"); reflexivity.
Qed.

Lemma length_prepared s method :
  List.length (V1.prepared log1p s method) = List.length s.
Proof.
  unfold V1.prepared. destruct (String.eqb method "log1p_minmax").
  - now rewrite length_log1p_safe, length_fillna.
  - apply length_fillna.
Qed.


Lemma prepared_nonempty s method :
  s <> [] -> V1.prepared log1p s method <> [].
Proof.
  rewrite !nonempty_length, length_prepared. auto.
Qed.

End Log.

End NormalizerFacts.

Local Open Scope string_scope.






(** ** The README scorer *)

(** C1, as the claim states it, fails: on the empty README both scorers
    return a value that is not 0. *)
Lemma empty_readme_score_not_zero :
  ~ V2.readme_score "" == 0 /\ ~ V2._readme_score "" == 0.
Proof.
  split; vm_compute; discriminate.
Qed.

(** C1, amended.  On the empty README both scorers return, without an
    error, the sum of the floors of the install signal and of the citation
    signal, 0.2 * 0.3 + 0.1 * 0.2 = 0.08. *)
Theorem readme_score_empty :
  V2.readme_score "" == 0.08 /\ V2._readme_score "" == 0.08.
Proof.
  split; vm_compute; reflexivity.
Qed.

Lemma count_nonneg n : 0 <= V2.count n.
Proof. unfold V2.count, Qle. simpl. lia. Qed.

Lemma qmin_lower a b c : c <= a -> c <= b -> c <= qmin a b.
Proof. intros. unfold qmin. destruct (Qle_bool a b); auto. Qed.

Lemma qmax_lower a b c : c <= a -> c <= qmax a b.
Proof.
  intro H. eapply Qle_trans; [exact H | apply NumFacts.qmax_ge_l].
Qed.

(** The floors of the install and citation signals keep every README
    score at 0.08 or above, whatever the text. *)
Lemma readme_score_floor text :
  0.08 <= V2.readme_score text /\ 0.08 <= V2._readme_score text.
Proof.
  assert (L : forall t, 0 <= qmin (V2.len t / 5000) 1).
  { intro t. apply qmin_lower; [|discriminate].
    apply Qle_shift_div_l; [reflexivity|].
    pose proof (count_nonneg (String.length t)) as H.
    unfold V2.count in H. unfold V2.len. lra. }
  assert (S : 0 <= V2.count (count_headings text) / 10).
  { apply Qle_shift_div_l; [reflexivity|].
    pose proof (count_nonneg (count_headings text)). lra. }
  unfold V2.readme_score, V2._readme_score.
  specialize (L (lower text)).
  split.
  - apply qmin_lower; [|discriminate].
    destruct (search_install_v1 (lower text));
      destruct (contains "citation" (lower text) || contains "doi" (lower text));
      lra.
  - apply qmin_lower; [|discriminate]. apply qmax_lower.
    destruct (search_install_v2 (lower text));
      destruct (contains "citation" (lower text) || contains "doi" (lower text));
      lra.
Qed.

(** ** The domain classifier *)

Module TextFacts.

Local Open Scope string_scope.

Lemma prefix_app k : forall t,
  prefix k t = true <-> exists post, t = k ++ post.
Proof.
  induction k as [|a k IH]; intro t.
  - destruct t; simpl; split; eauto.
  - destruct t as [|b t]; simpl.
    + split; [discriminate | intros [post H]; discriminate].
    + destruct (ascii_dec a b) as [->|Hab].
      * rewrite IH. split; intros [post H]; exists post; congruence.
      * split; [discriminate|]. intros [post H]. congruence.
Qed.

Lemma contains_occurs k t : contains k t = true <-> occurs k t.
Proof.
  induction t as [|c t IH]; cbn [contains].
  - destruct (prefix k "") eqn:P.
    + split; [|reflexivity]. intros _.
      apply prefix_app in P. destruct P as [post P].
      exists "", post. exact P.
    + split; [discriminate|]. intros (pre & post & H).
      destruct pre; [|discriminate].
      assert (prefix k "" = true) by (apply prefix_app; eauto).
      congruence.
  - destruct (prefix k (String c t)) eqn:P.
    + split; [|reflexivity]. intros _.
      apply prefix_app in P. destruct P as [post P].
      exists "", post. exact P.
    + rewrite IH. split.
      * intros (pre & post & ->). exists (String c pre), post. reflexivity.
      * intros (pre & post & H). destruct pre as [|c' pre].
        -- assert (prefix k (String c t) = true) by (apply prefix_app; eauto).
           congruence.
        -- injection H as _ ->. exists pre, post. reflexivity.
Qed.

Lemma any_in_mentions kws text :
  any_in kws (lower text) = true <-> mentions kws text.
Proof.
  unfold any_in, mentions. rewrite existsb_exists.
  split; intros (k & Hk & H); exists k; split; auto;
    now apply contains_occurs.
Qed.

Lemma lower_app a b : lower (a ++ b) = lower a ++ lower b.
Proof. induction a; simpl; congruence. Qed.

(** Lowering the text keeps the occurrences of a lower-case word. *)
Lemma occurs_lower k t : lower k = k -> occurs k t -> occurs k (lower t).
Proof.
  intros Hk (pre & post & ->).
  exists (lower pre), (lower post).
  now rewrite !lower_app, Hk.
Qed.

End TextFacts.

Local Open Scope string_scope.

(** Turns the outcome [H] of a keyword test into the fact it decides. *)
Ltac decide_mentions H :=
  match type of H with
  | any_in _ _ = true => apply TextFacts.any_in_mentions in H
  | any_in ?kws (lower ?t) = false =>
      let N := fresh "N" in
      assert (N : ~ mentions kws t)
        by (intro N; apply TextFacts.any_in_mentions in N; congruence);
      clear H
  end.

(** C8.  The classifier is a function of the text alone; the copy local
    to [compute_scores] computes what the module-level one computes; the
    label is one of bio, chem, material, ml and other; it is the first, in
    that order, of the four domains one of whose keywords occurs in the
    text with letter case set apart, and other when none does.  So a text
    in which "protein" occurs is bio, whatever else occurs in it ("deep"
    too), and a text without any keyword is other. *)
Theorem detect_domain_priority (text : string) :
  V2._detect_domain text = V2.detect_domain text
  /\ In (V2.detect_domain text) ["bio"; "chem"; "material"; "ml"; "other"]
  /\ (V2.detect_domain text = "bio" <-> mentions V2.bio_keywords text)
  /\ (V2.detect_domain text = "chem" <->
      ~ mentions V2.bio_keywords text /\ mentions V2.chem_keywords text)
  /\ (V2.detect_domain text = "material" <->
      ~ mentions V2.bio_keywords text /\ ~ mentions V2.chem_keywords text
      /\ mentions V2.material_keywords text)
  /\ (V2.detect_domain text = "ml" <->
      ~ mentions V2.bio_keywords text /\ ~ mentions V2.chem_keywords text
      /\ ~ mentions V2.material_keywords text
      /\ mentions V2.ml_keywords text)
  /\ (V2.detect_domain text = "other" <->
      ~ mentions V2.bio_keywords text /\ ~ mentions V2.chem_keywords text
      /\ ~ mentions V2.material_keywords text
      /\ ~ mentions V2.ml_keywords text)
  /\ (forall pre post,
        V2.detect_domain (pre ++ "protein" ++ post) = "bio"
        /\ V2.detect_domain (pre ++ "protein" ++ post ++ "deep") = "bio"
        /\ V2.detect_domain ("deep" ++ pre ++ "protein" ++ post) = "bio").
Proof.
  split; [reflexivity|].
  assert (P : forall pre post, V2.detect_domain (pre ++ "protein" ++ post) = "bio").
  { intros pre post. unfold V2.detect_domain.
    assert (H : any_in V2.bio_keywords (lower (pre ++ "protein" ++ post)) = true).
    { apply TextFacts.any_in_mentions. exists "protein". split; [simpl; auto|].
      apply TextFacts.occurs_lower; [reflexivity|]. now exists pre, post. }
    now rewrite H. }
  remember (V2.detect_domain text) as d eqn:D.
  unfold V2.detect_domain in D.
  destruct (any_in V2.bio_keywords (lower text)) eqn:B;
    destruct (any_in V2.chem_keywords (lower text)) eqn:C;
    destruct (any_in V2.material_keywords (lower text)) eqn:M;
    destruct (any_in V2.ml_keywords (lower text)) eqn:L;
    subst d;
    decide_mentions B; decide_mentions C; decide_mentions M;
    decide_mentions L;
    (split; [simpl; tauto|]);
    repeat match goal with
      | |- _ /\ _ => split
      | |- _ <-> _ => split; intros; try discriminate; try tauto
      | |- forall _, _ => intros
      | |- V2.detect_domain _ = _ => first [apply P | apply (P ("deep" ++ pre) post)]
      end.
Qed.

(** ** The weights of the basic scorer *)

Module WeightFacts.

Lemma dict_get_app {V : Type} k k' (v : V) d :
  dict_get k (d ++ [(k', v)])%list =
  match dict_get k d with
  | Some x => Some x
  | None => if String.eqb k' k then Some v else None
  end.
Proof.
  induction d as [|[k0 v0] d IH]; simpl.
  - reflexivity.
  - destruct (String.eqb k0 k); auto.
Qed.

Lemma dict_get_setdefault {V : Type} k k' (v : V) d :
  dict_get k (setdefault k' v d) =
  match dict_get k d with
  | Some x => Some x
  | None => if String.eqb k' k then Some v else None
  end.
Proof.
  unfold setdefault. destruct (dict_get k' d) eqn:E.
  - destruct (dict_get k d) eqn:F; [reflexivity|].
    destruct (String.eqb k' k) eqn:K; [|reflexivity].
    apply String.eqb_eq in K. congruence.
  - apply dict_get_app.
Qed.

(** Merging defaults leaves the keys already set as they are and gives
    the others their first default. *)
Lemma dict_get_merge {V : Type} k (ds : dict V) : forall out,
  dict_get k (fold_left (fun o kv => setdefault (fst kv) (snd kv) o) ds out) =
  match dict_get k out with
  | Some x => Some x
  | None => dict_get k ds
  end.
Proof.
  induction ds as [|[k0 v0] ds IH]; intro out; simpl.
  - now destruct (dict_get k out).
  - rewrite IH, dict_get_setdefault.
    destruct (dict_get k out); [reflexivity|].
    now destruct (String.eqb k0 k).
Qed.

Lemma dict_get_map {V W : Type} (f : V -> W) k d :
  dict_get k (map (fun kv => (fst kv, f (snd kv))) d) =
  option_map f (dict_get k d).
Proof.
  induction d as [|[k0 v0] d IH]; simpl.
  - reflexivity.
  - now destruct (String.eqb k0 k).
Qed.







End WeightFacts.




(** ** Tables: rows of combined columns, sorted rows *)

Module TableFacts.

Lemma length_zip_with {A B C : Type} (f : A -> B -> C) xs : forall ys,
  List.length xs = List.length ys ->
  List.length (zip_with f xs ys) = List.length xs.
Proof.
  induction xs as [|x xs IH]; intros [|y ys] H; simpl in *; try congruence.
  f_equal. apply IH. congruence.
Qed.

Lemma nth_zip_with {A B C : Type} (f : A -> B -> C) dx dy dz xs :
  forall ys i,
    List.length xs = List.length ys -> (i < List.length xs)%nat ->
    nth i (zip_with f xs ys) dz = f (nth i xs dx) (nth i ys dy).
Proof.
  induction xs as [|x xs IH]; intros [|y ys] i H Hi; simpl in *;
    try lia; try congruence.
  destruct i as [|i]; [reflexivity|].
  apply IH; [congruence | lia].
Qed.

Lemma nth_map_in {A B : Type} (f : A -> B) da db l : forall i,
  (i < List.length l)%nat -> nth i (map f l) db = f (nth i l da).
Proof.
  induction l as [|x l IH]; intros i Hi; simpl in *; [lia|].
  destruct i as [|i]; [reflexivity|]. apply IH. lia.
Qed.

Lemma length_scale w col : List.length (scale w col) = List.length col.
Proof. apply length_map. Qed.

Lemma nth_scale w col i :
  (i < List.length col)%nat ->
  nth i (scale w col) NaN = fmul w (nth i col NaN).
Proof. apply nth_map_in. Qed.

Lemma length_col_add xs ys :
  List.length xs = List.length ys ->
  List.length (col_add xs ys) = List.length xs.
Proof. apply length_zip_with. Qed.

Lemma nth_col_add xs ys i :
  List.length xs = List.length ys -> (i < List.length xs)%nat ->
  nth i (col_add xs ys) NaN = fadd (nth i xs NaN) (nth i ys NaN).
Proof. apply nth_zip_with. Qed.

Lemma nth_col_mul xs ys i :
  List.length xs = List.length ys -> (i < List.length xs)%nat ->
  nth i (col_mul xs ys) NaN = fmul (nth i xs NaN) (nth i ys NaN).
Proof. apply nth_zip_with. Qed.

Section Sorting.
Context {A : Type} (key : A -> fnum).

Lemma in_insert_by x a l : In x (insert_by key a l) <-> x = a \/ In x l.
Proof.
  induction l as [|y l IH]; simpl.
  - intuition.
  - destruct (before (key a) (key y)); simpl; [intuition|].
    rewrite IH. intuition.
Qed.

(** Sorting keeps the rows: it neither drops nor invents one. *)
Lemma in_sort_desc x l : In x (sort_desc key l) <-> In x l.
Proof.
  induction l as [|a l IH]; simpl.
  - tauto.
  - rewrite in_insert_by, IH. intuition.
Qed.

Lemma length_insert_by a l :
  List.length (insert_by key a l) = S (List.length l).
Proof.
  induction l as [|y l IH]; simpl; [reflexivity|].
  destruct (before (key a) (key y)); simpl; congruence.
Qed.

Lemma length_sort_desc l : List.length (sort_desc key l) = List.length l.
Proof.
  induction l as [|a l IH]; simpl; [reflexivity|].
  now rewrite length_insert_by, IH.
Qed.

Lemma Forall_sort_desc (P : A -> Prop) l :
  Forall P l -> Forall P (sort_desc key l).
Proof.
  rewrite !Forall_forall. intros H x Hx. apply H. now apply in_sort_desc.
Qed.

End Sorting.

End TableFacts.

(** ** The enriched composite score *)

Module CompositeFacts.
Import TableFacts.

(** Lengths of sums of scaled columns of one length. *)
Ltac same_length :=
  repeat first
    [ rewrite length_scale
    | rewrite length_col_add ];
  try congruence.

(** Cell [i] of the composite column, for any seven signal columns and
    any weight column of one length. *)
Lemma composite_cell (n i : nat) (sn cn kn isn stn rs ci dw : list fnum) :
  List.length sn = n -> List.length cn = n -> List.length kn = n ->
  List.length isn = n -> List.length stn = n -> List.length rs = n ->
  List.length ci = n -> List.length dw = n -> (i < n)%nat ->
  nth i
    (col_mul
      (col_add (col_add (col_add (col_add (col_add (col_add
         (scale (Fin 0.20) sn) (scale (Fin 0.15) cn)) (scale (Fin 0.15) kn))
         (scale (Fin 0.10) isn)) (scale (Fin 0.10) stn))
         (scale (Fin 0.15) rs)) (scale (Fin 0.15) ci))
      dw) NaN
  = fmul (V2.weighted_sum (nth i sn NaN) (nth i cn NaN) (nth i kn NaN)
            (nth i isn NaN) (nth i stn NaN) (nth i rs NaN) (nth i ci NaN))
         (nth i dw NaN).
Proof.
  intros Hs Hc Hk Hi Ht Hr Hci Hd Hlt.
  rewrite nth_col_mul; [| same_length; same_length | same_length; same_length; lia].
  f_equal. unfold V2.weighted_sum.
  repeat (rewrite nth_col_add;
          [| same_length; same_length | same_length; same_length; lia]).
  rewrite !nth_scale by lia. reflexivity.
Qed.

(** The weight of a label: its entry of the table, 1 without an entry. *)
Lemma weight_cell (d : string) :
  (let x := match dict_get d V2.domain_weights with
            | Some v => v
            | None => NaN
            end in
   match x with Fin _ => x | NaN => Fin 1 end)
  = match dict_get d V2.domain_weights with Some w => w | None => Fin 1 end.
Proof.
  unfold V2.domain_weights, dict_get.
  repeat match goal with
         | |- context [String.eqb ?a d] => destruct (String.eqb a d)
         end; reflexivity.
Qed.

Lemma unknown_label_has_no_weight (d : string) :
  ~ In d ["bio"; "chem"; "material"; "ml"; "other"]%string ->
  dict_get d V2.domain_weights = None.
Proof.
  intro H. unfold V2.domain_weights, dict_get.
  repeat match goal with
         | |- context [String.eqb ?a d] =>
             let E := fresh "E" in
             destruct (String.eqb a d) eqn:E;
             [apply String.eqb_eq in E; exfalso; apply H; subst d;
              simpl; tauto | clear E]
         end.
  reflexivity.
Qed.

End CompositeFacts.

(** C2.  Every row that [compute_scores] returns has for composite score
    the weighted sum 0.20*stars_n + 0.15*commits_n + 0.15*contributors_n
    + 0.10*issues_n + 0.10*staleness_n + 0.15*readme_score
    + 0.15*ci_test_score, multiplied by the weight of its domain; the
    weights are bio 1.0, chem 0.95, material 0.9, ml 1.05, other 1.0, and
    a label without an entry in that table has weight 1.0.  There is one
    such row for each row of the frame. *)
Theorem composite_v2_formula (fetch : string -> string) (df : V2.frame) :
  V2.well_formed df ->
  List.length (V2.compute_scores fetch df) = List.length (V2.repo df)
  /\ Forall
       (fun r =>
          V2.composite_v2 r =
          fmul (V2.weighted_sum (V2.stars_n r) (V2.commits_n r)
                  (V2.contributors_n r) (V2.issues_n r) (V2.staleness_n r)
                  (V2.r_readme_score r) (V2.r_ci_test_score r))
               (V2.domain_weight r)
          /\ V2.domain_weight r =
             match dict_get (V2.domain r) V2.domain_weights with
             | Some w => w
             | None => Fin 1
             end)
       (V2.compute_scores fetch df)
  /\ V2.domain_weights =
     [ ("bio", Fin 1); ("chem", Fin 0.95); ("material", Fin 0.9);
       ("ml", Fin 1.05); ("other", Fin 1) ]
  /\ (forall d, ~ In d ["bio"; "chem"; "material"; "ml"; "other"] ->
                dict_get d V2.domain_weights = None).
Proof.
  intros (Hd & Hs & Hc & Hk & Hi & Ht).
  split; [|split; [|split; [reflexivity|]]].
  - unfold V2.compute_scores, V2.rows.
    now rewrite TableFacts.length_sort_desc, length_map, length_seq.
  - unfold V2.compute_scores. apply TableFacts.Forall_sort_desc.
    unfold V2.rows. rewrite Forall_map. apply Forall_forall.
    intros i Hin. apply in_seq in Hin. simpl in Hin.
    destruct Hin as [_ Hlt].
    remember (List.length (V2.repo df)) as n eqn:Hn.
    assert (Ldom : List.length
              (zip_with (V2.domain_cell fetch) (V2.repo df) (V2.description df))
              = n)
      by (rewrite TableFacts.length_zip_with; congruence).
    unfold V2.row_at, V2.score_columns; cbn [V2.composite_v2 V2.stars_n
      V2.commits_n V2.contributors_n V2.issues_n V2.staleness_n
      V2.r_readme_score V2.r_ci_test_score V2.domain V2.domain_weight
      V2.c_stars_n V2.c_commits_n V2.c_contributors_n V2.c_issues_n
      V2.c_staleness_n V2.c_readme_score V2.c_ci_test_score V2.c_domain
      V2.c_domain_weight V2.c_composite_v2].
    split.
    + apply (CompositeFacts.composite_cell n); auto;
        unfold V2._normalize_series, V2._to_num, one_minus, V2.irr_filled,
          V2.stale_filled, V2.map_dict;
        rewrite ?length_map, ?NormalizerFacts.length_minmax,
          ?NumFacts.length_fillna, ?NumFacts.length_zeros, ?length_map;
        auto.
      rewrite TableFacts.length_zip_with; congruence.
    + unfold fillna, V2.map_dict.
      rewrite (TableFacts.nth_map_in _ NaN NaN)
        by now rewrite length_map, Ldom.
      rewrite (TableFacts.nth_map_in _ ""%string NaN) by now rewrite Ldom.
      apply CompositeFacts.weight_cell.
  - apply CompositeFacts.unknown_label_has_no_weight.
Qed.

Lemma composite_v2_formula_witness :
  List.length
    (V2.compute_scores (fun _ => "# Protein tools"%string)
       {| V2.repo := ["o/a"; "o/b"];
          V2.description := ["deep model"; "crystal"];
          V2.stars := [Fin 10; Fin 2];
          V2.commits_window := [Fin 3; NaN];
          V2.contributors := [Fin 1; Fin 4];
          V2.issue_resolution_rate := [NaN; Fin 0.5];
          V2.days_since_last_update := [Fin 7; NaN] |}) = 2%nat.
Proof.
  apply (composite_v2_formula (fun _ => "# Protein tools"%string)
           {| V2.repo := ["o/a"; "o/b"];
              V2.description := ["deep model"; "crystal"];
              V2.stars := [Fin 10; Fin 2];
              V2.commits_window := [Fin 3; NaN];
              V2.contributors := [Fin 1; Fin 4];
              V2.issue_resolution_rate := [NaN; Fin 0.5];
              V2.days_since_last_update := [Fin 7; NaN] |}).
  unfold V2.well_formed. simpl. repeat split.
Defined.

(** ** Fusion with the benchmark *)

Module FusionFacts.
Import Fusion TableFacts NumFacts.

Lemma fillna_complete_id v xs : complete xs -> fillna v xs = xs.
Proof.
  unfold complete, fillna. induction 1 as [|x xs Hx _ IH]; simpl.
  - reflexivity.
  - rewrite IH. destruct x; [reflexivity | discriminate].
Qed.

Lemma length_latency_scores elapsed :
  List.length (latency_scores elapsed) = List.length elapsed.
Proof.
  unfold latency_scores.
  destruct (negb (List.length (fillna (pd_max elapsed) elapsed) =? 0)%nat
            && fgtb (pd_max (fillna (pd_max elapsed) elapsed)) (Fin 0)).
  - now rewrite length_map, length_fillna.
  - now rewrite repeat_length, length_fillna.
Qed.

Lemma pd_min_exists xs e : In (Fin e) xs -> exists lo, pd_min xs = Fin lo.
Proof.
  intro H. apply in_finite_values in H. unfold pd_min, reduce.
  destruct (finite_values xs); [contradiction | eauto].
Qed.

Lemma pd_max_exists xs e : In (Fin e) xs -> exists hi, pd_max xs = Fin hi.
Proof.
  intro H. apply in_finite_values in H. unfold pd_max, reduce.
  destruct (finite_values xs); [contradiction | eauto].
Qed.

(** The latency column of elapsed times that are all the number [t]. *)
Lemma latency_of_equal_times elapsed t :
  elapsed <> [] -> Forall (fun x => same x (Fin t)) elapsed ->
  (0 < t -> Forall (fun y => same y (Fin 1)) (latency_scores elapsed))
  /\ (t <= 0 -> Forall (fun y => y = Fin 0) (latency_scores elapsed)).
Proof.
  intros Hne Hall.
  assert (Hc : complete elapsed).
  { unfold complete. revert Hall. apply Forall_impl.
    intros [q|]; simpl; [reflexivity | contradiction]. }
  assert (Ht : forall q, In (Fin q) elapsed -> q == t).
  { intros q Hq. rewrite Forall_forall in Hall. exact (Hall _ Hq). }
  destruct elapsed as [|[e|] rest] eqn:E; [contradiction| |inversion Hc; discriminate].
  rewrite <- E in *. clear Hne.
  assert (He : In (Fin e) elapsed) by (rewrite E; now left).
  destruct (pd_min_exists _ _ He) as [lo Hlo].
  destruct (pd_max_exists _ _ He) as [hi Hhi].
  destruct (pd_min_spec _ _ Hlo) as [Ilo _].
  destruct (pd_max_spec _ _ Hhi) as [Ihi _].
  pose proof (Ht _ Ilo) as Elo. pose proof (Ht _ Ihi) as Ehi.
  unfold latency_scores.
  rewrite (fillna_complete_id _ _ Hc), Hlo, Hhi.
  assert (Hlen : (List.length elapsed =? 0)%nat = false)
    by (rewrite E; reflexivity).
  rewrite Hlen. simpl negb. simpl andb. simpl fgtb.
  assert (Hspan : Qle_bool hi lo = true) by (apply Qle_bool_iff; lra).
  rewrite Hspan. simpl negb.
  split; intro Hsign.
  - assert (Hpos : Qle_bool hi 0 = false).
    { destruct (Qle_bool hi 0) eqn:B; [|reflexivity].
      apply Qle_bool_iff in B. lra. }
    rewrite Hpos. simpl negb. cbv iota.
    rewrite Forall_map. apply Forall_forall. intros [q|] Hq.
    + pose proof (Ht _ Hq) as Eq. simpl. rewrite Eq, Elo. field.
    + unfold complete in Hc. rewrite Forall_forall in Hc.
      specialize (Hc _ Hq). discriminate.
  - assert (Hneg : Qle_bool hi 0 = true) by (apply Qle_bool_iff; lra).
    rewrite Hneg. simpl negb. cbv iota.
    apply Forall_forall. intros y Hy. now apply repeat_spec in Hy.
Qed.

(** The four columns of the signals are the columns they were zipped
    from. *)
Lemma signal_columns (ks : list string) : forall (ps ls bs : list fnum),
  List.length ps = List.length ks ->
  List.length ls = List.length ks ->
  List.length bs = List.length ks ->
  let sigs :=
    zip_with (fun kp lb => {| key := fst kp; pass_score := snd kp;
                              latency_score := fst lb; bench_score := snd lb |})
             (combine ks ps) (combine ls bs) in
  map key sigs = ks /\ map pass_score sigs = ps
  /\ map latency_score sigs = ls /\ map bench_score sigs = bs.
Proof.
  induction ks as [|k ks IH]; intros [|p ps] [|l ls] [|b bs] Hp Hl Hb;
    simpl in *; try discriminate; auto.
  destruct (IH ps ls bs) as (A & B & C & D); try congruence.
  repeat split; f_equal; assumption.
Qed.

Lemma bench_signal_columns (b : list bench_row) :
  let bx := non_skipped b in
  map key (bench_signal b) = map (fun r => bench_key (name r)) bx
  /\ map pass_score (bench_signal b) = map (fun r => pass_of (passed r)) bx
  /\ map latency_score (bench_signal b) = latency_scores (map elapsed_s bx).
Proof.
  intro bx. unfold bench_signal. fold bx.
  destruct (signal_columns
              (map (fun r => bench_key (name r)) bx)
              (map (fun r => pass_of (passed r)) bx)
              (latency_scores (map elapsed_s bx))
              (col_add (scale (Fin 0.7) (map (fun r => pass_of (passed r)) bx))
                       (scale (Fin 0.3) (latency_scores (map elapsed_s bx)))))
    as (A & B & C & _).
  - now rewrite !length_map.
  - now rewrite length_latency_scores, !length_map.
  - rewrite length_col_add; rewrite !length_scale, ?length_latency_scores,
      !length_map; reflexivity.
  - auto.
Qed.

End FusionFacts.

(** C4, as the claim states it, fails: two records that are not
    skipped, both of elapsed time 2.0, get latency score 1.0 each, not
    0.0. *)
Lemma equal_elapsed_latency_not_zero :
  Forall (fun s => same (Fusion.latency_score s) (Fin 1)
                   /\ ~ same (Fusion.latency_score s) (Fin 0))
    (Fusion.bench_signal
       (Fusion.load_bench
          [ {| Fusion.it_name := Some "a";
               Fusion.it_passed := Some (Fusion.JBool true);
               Fusion.it_skipped := Some (Fusion.JBool false);
               Fusion.it_elapsed_s := Some 2 |};
            {| Fusion.it_name := Some "b";
               Fusion.it_passed := Some (Fusion.JBool true);
               Fusion.it_skipped := Some (Fusion.JBool false);
               Fusion.it_elapsed_s := Some 2 |} ]))
  /\ List.length
       (Fusion.bench_signal
          (Fusion.load_bench
             [ {| Fusion.it_name := Some "a";
                  Fusion.it_passed := Some (Fusion.JBool true);
                  Fusion.it_skipped := Some (Fusion.JBool false);
                  Fusion.it_elapsed_s := Some 2 |};
               {| Fusion.it_name := Some "b";
                  Fusion.it_passed := Some (Fusion.JBool true);
                  Fusion.it_skipped := Some (Fusion.JBool false);
                  Fusion.it_elapsed_s := Some 2 |} ])) = 2%nat.
Proof.
  split; [|reflexivity].
  repeat constructor; vm_compute; congruence.
Qed.

(** C4, amended.  For every non-empty set of non-skipped benchmark
    records whose elapsed times are all equal, every record's latency
    score is 1.0 when that time is positive, and 0.0 when it is zero or
    negative. *)
Theorem equal_elapsed_latency_scores (b : list Fusion.bench_row) (t : Q) :
  Fusion.non_skipped b <> [] ->
  Forall (fun r => same (Fusion.elapsed_s r) (Fin t)) (Fusion.non_skipped b) ->
  List.length (Fusion.bench_signal b) = List.length (Fusion.non_skipped b)
  /\ (0 < t ->
      Forall (fun s => same (Fusion.latency_score s) (Fin 1))
             (Fusion.bench_signal b))
  /\ (t <= 0 ->
      Forall (fun s => Fusion.latency_score s = Fin 0)
             (Fusion.bench_signal b)).
Proof.
  intros Hne Hall.
  destruct (FusionFacts.bench_signal_columns b) as (K & _ & L).
  destruct (FusionFacts.latency_of_equal_times
              (map Fusion.elapsed_s (Fusion.non_skipped b)) t) as [Hpos Hneg].
  - intro E. apply map_eq_nil in E. contradiction.
  - now rewrite Forall_map.
  - split; [|split].
    + rewrite <- (length_map Fusion.key), K. apply length_map.
    + intro Ht. specialize (Hpos Ht). rewrite <- L, Forall_map in Hpos.
      exact Hpos.
    + intro Ht. specialize (Hneg Ht). rewrite <- L, Forall_map in Hneg.
      exact Hneg.
Qed.

Lemma equal_elapsed_latency_scores_witness :
  Forall (fun s => same (Fusion.latency_score s) (Fin 1))
    (Fusion.bench_signal
       [ {| Fusion.name := "a"; Fusion.passed := Some true;
            Fusion.skipped := false; Fusion.elapsed_s := Fin 2 |};
         {| Fusion.name := "b"; Fusion.passed := Some false;
            Fusion.skipped := false; Fusion.elapsed_s := Fin 2 |};
         {| Fusion.name := "c"; Fusion.passed := None;
            Fusion.skipped := true; Fusion.elapsed_s := NaN |} ]).
Proof.
  refine (proj1 (proj2 (equal_elapsed_latency_scores _ 2 _ _)) _).
  - discriminate.
  - repeat constructor; reflexivity.
  - reflexivity.
Defined.

Module MergeFacts.
Import Fusion TableFacts FusionFacts.



Lemma merge_left_unmatched df bx c :
  In c df ->
  filter (fun s => String.eqb (key s) (repo_to_key (repo c))) bx = [] ->
  In (c, None) (merge_left df bx).
Proof.
  intros Hc Hf. unfold merge_left. apply in_flat_map.
  exists c. split; [exact Hc|]. rewrite Hf. now left.
Qed.

Lemma merge_left_inv df bx c m :
  In (c, m) (merge_left df bx) ->
  In c df
  /\ match m with
     | None => True
     | Some s => In s bx /\ key s = repo_to_key (repo c)
     end.
Proof.
  unfold merge_left. intro H. apply in_flat_map in H.
  destruct H as (c' & Hc' & H).
  destruct (filter (fun s => String.eqb (key s) (repo_to_key (repo c'))) bx)
    as [|s0 ms] eqn:F.
  - destruct H as [H|[]]. injection H as -> <-. auto.
  - rewrite <- F in H. apply in_map_iff in H.
    destruct H as (s & Hs & Hin). injection Hs as -> <-.
    split; [exact Hc'|].
    apply filter_In in Hin. destruct Hin as [Hin E].
    apply String.eqb_eq in E. auto.
Qed.



End MergeFacts.



(** Without a record in the benchmark file the fusion stops on the
    missing column. *)
Lemma main_without_records alpha beta df :
  Fusion.main alpha beta df [] = Raise KeyError.
Proof. reflexivity. Qed.

Module SignalFacts.
Import Fusion TableFacts FusionFacts.


End SignalFacts.



(** ** The fill of the missing days since the last update *)

Module StaleFacts.

Lemma finite_values_all_missing n : finite_values (repeat NaN n) = [].
Proof. induction n; simpl; auto. Qed.

Lemma pd_median_all_missing n : pd_median (repeat NaN n) = NaN.
Proof. unfold pd_median. now rewrite finite_values_all_missing. Qed.

Lemma fillna_all_missing v n : fillna v (repeat NaN n) = repeat v n.
Proof. induction n; simpl; congruence. Qed.

Lemma length_insert_asc x l :
  List.length (insert_asc x l) = S (List.length l).
Proof.
  induction l as [|y l IH]; simpl; [reflexivity|].
  destruct (Qle_bool x y); simpl; congruence.
Qed.

Lemma length_sort_asc l : List.length (sort_asc l) = List.length l.
Proof.
  induction l as [|x l IH]; simpl; [reflexivity|].
  now rewrite length_insert_asc, IH.
Qed.



Lemma insert_asc_sorted x l : Sorted Qle l -> Sorted Qle (insert_asc x l).
Proof.
  induction 1 as [|y l Hs IH Hd]; simpl.
  - repeat constructor.
  - destruct (Qle_bool x y) eqn:E.
    + apply Qle_bool_iff in E. repeat constructor; assumption.
    + assert (Hyx : y <= x).
      { apply Qlt_le_weak, Qnot_le_lt. intro H.
        apply Qle_bool_iff in H. congruence. }
      constructor; [exact IH|].
      destruct l as [|z l]; simpl.
      * now constructor.
      * inversion Hd; subst.
        destruct (Qle_bool x z); now constructor.
Qed.

Lemma sort_asc_sorted l : Sorted Qle (sort_asc l).
Proof.
  induction l as [|x l IH]; simpl; [constructor|].
  now apply insert_asc_sorted.
Qed.

(** A column with a number in it has a median. *)
Lemma pd_median_exists col q :
  In (Fin q) col -> exists m, pd_median col = Fin m.
Proof.
  intro H. apply NumFacts.in_finite_values in H.
  unfold pd_median, median_sorted.
  destruct (sort_asc (finite_values col)) as [|x l] eqn:E.
  - apply (f_equal (@List.length Q)) in E. rewrite length_sort_asc in E.
    destruct (finite_values col); [contradiction | discriminate].
  - destruct (Nat.even (List.length (x :: l))); eauto.
Qed.

(** The enriched scorer: the missing days take the median of the days
    that are there, and 180 when none is. *)
Lemma stale_filled_v2 col :
  (forall q, In (Fin q) col ->
             exists m, pd_median col = Fin m
                       /\ V2.stale_filled col = fillna (Fin m) col)
  /\ (finite_values col = [] -> V2.stale_filled col = fillna (Fin 180) col).
Proof.
  unfold V2.stale_filled. split.
  - intros q Hq. destruct (pd_median_exists _ _ Hq) as [m Hm].
    exists m. now rewrite Hm.
  - intro H. unfold pd_median. now rewrite H.
Qed.

(** The basic scorer: the missing days take the median of the column,
    whatever it is. *)
Lemma stale_filled_v1 s c k i col :
  V1.stale_filled
    {| V1.stars := s; V1.commits_window := c; V1.contributors := k;
       V1.issue_resolution_rate := i;
       V1.days_since_last_update := Some col |}
  = Ok (fillna (pd_median col) col).
Proof. reflexivity. Qed.

(** The basic scorer on a frame of two rows without a date of last
    update: no cell of the days is filled, and both rows get the
    staleness score 1. *)
Lemma score_dataframe_all_missing_days :
  exists sc,
    V1.score_dataframe (fun q => q)
      {| V1.stars := [Fin 10; Fin 2]; V1.commits_window := [Fin 3; Fin 1];
         V1.contributors := [Fin 1; Fin 4];
         V1.issue_resolution_rate := [NaN; Fin 0.5];
         V1.days_since_last_update := Some [NaN; NaN] |} V1.default = Ok sc
    /\ Forall (fun x => same x (Fin 1)) (V1.staleness_n sc).
Proof.
  eexists. split; [vm_compute; reflexivity|].
  repeat constructor.
Qed.

End StaleFacts.

(** C9, the code against the claim.  On a column of days since the last
    update in which every value is missing, the basic scorer fills with
    the median of the column, which is itself missing: every cell stays
    missing and none becomes 180 (its fallback to 180 is bound to the
    absence of the column, in which case the column read before it
    raises).  The enriched scorer fills every cell with 180. *)
Theorem all_missing_days_fill (n : nat) (s c k i : list fnum) :
  V1.stale_filled
    {| V1.stars := s; V1.commits_window := c; V1.contributors := k;
       V1.issue_resolution_rate := i;
       V1.days_since_last_update := Some (repeat NaN n) |}
  = Ok (repeat NaN n)
  /\ V1.stale_filled
       {| V1.stars := s; V1.commits_window := c; V1.contributors := k;
          V1.issue_resolution_rate := i;
          V1.days_since_last_update := None |}
     = Raise KeyError
  /\ V2.stale_filled (repeat NaN n) = repeat (Fin 180) n.
Proof.
  split; [|split].
  - rewrite StaleFacts.stale_filled_v1, StaleFacts.pd_median_all_missing.
    now rewrite StaleFacts.fillna_all_missing.
  - reflexivity.
  - unfold V2.stale_filled.
    rewrite StaleFacts.pd_median_all_missing. simpl.
    apply StaleFacts.fillna_all_missing.
Qed.

(* ================================================================== *)
(** * Further properties of the scoring code *)

(** ** README scores *)

Module ReadmeFacts.

Local Open Scope string_scope.

Lemma qmin_mono a b c : a <= b -> qmin a c <= qmin b c.
Proof.
  intro H. apply qmin_lower.
  - eapply Qle_trans; [apply NumFacts.qmin_le_l | exact H].
  - apply NumFacts.qmin_le_r.
Qed.

Lemma search_install_v2_here s :
  ws_install_at "pip" s || ws_install_at "conda" s
  || prefix "requirements.txt" s = true ->
  search_install_v2 s = true.
Proof.
  intro H. destruct s; cbn [search_install_v2]; now rewrite H.
Qed.

Lemma search_install_v2_later c s :
  search_install_v2 s = true -> search_install_v2 (String c s) = true.
Proof.
  intro H. cbn [search_install_v2]. rewrite H.
  now destruct (ws_install_at "pip" (String c s)
                || ws_install_at "conda" (String c s)
                || prefix "requirements.txt" (String c s)).
Qed.

(** A word found by [in] at some place is found by a search that tests
    every place with a test that the word passes. *)
Lemma contains_search k t :
  (forall s, prefix k s = true ->
             ws_install_at "pip" s || ws_install_at "conda" s
             || prefix "requirements.txt" s = true) ->
  contains k t = true -> search_install_v2 t = true.
Proof.
  intro Hk. induction t as [|c t IH]; cbn [contains].
  - destruct (prefix k "") eqn:P; [|discriminate].
    intros _. now apply search_install_v2_here, Hk.
  - destruct (prefix k (String c t)) eqn:P.
    + intros _. now apply search_install_v2_here, Hk.
    + intro H. now apply search_install_v2_later, IH.
Qed.

(** Whatever the install pattern of the module-level scorer finds, the
    pattern of the scorer of [compute_scores] finds. *)
Lemma install_v1_v2 t :
  search_install_v1 t = true -> search_install_v2 t = true.
Proof.
  unfold search_install_v1. intro H.
  apply orb_true_iff in H. destruct H as [H|H];
    [apply orb_true_iff in H; destruct H as [H|H]|].
  - revert H. apply contains_search. intros s P.
    apply TextFacts.prefix_app in P. destruct P as [post ->].
    destruct post; reflexivity.
  - revert H. apply contains_search. intros s P.
    apply TextFacts.prefix_app in P. destruct P as [post ->].
    destruct post; reflexivity.
  - revert H. apply contains_search. intros s P. rewrite P.
    now rewrite !orb_true_r.
Qed.

Lemma len_signal_nonneg t : 0 <= qmin (V2.len t / 5000) 1.
Proof.
  apply qmin_lower; [|discriminate].
  apply Qle_shift_div_l; [reflexivity|].
  pose proof (count_nonneg (String.length t)) as H.
  unfold V2.count in H. unfold V2.len. lra.
Qed.

Lemma heading_signal_nonneg t : 0 <= V2.count (count_headings t) / 10.
Proof.
  apply Qle_shift_div_l; [reflexivity|].
  pose proof (count_nonneg (count_headings t)). lra.
Qed.

End ReadmeFacts.

(** X1.  Both README scorers return, for every text, a score between 0.08
    and 1. *)
Theorem readme_score_bounds (text : string) :
  (0.08 <= V2.readme_score text /\ V2.readme_score text <= 1)
  /\ (0.08 <= V2._readme_score text /\ V2._readme_score text <= 1).
Proof.
  destruct (readme_score_floor text) as [F1 F2].
  repeat split; auto; apply NumFacts.qmin_le_r.
Qed.

(** X2.  The scorer of [compute_scores] never scores a text below the
    module-level scorer, and the two scores are equal whenever their
    install patterns agree on the text: they differ only on a text where
    blanks other than one space separate pip or conda from install. *)
Theorem readme_score_v1_below_v2 (text : string) :
  V2.readme_score text <= V2._readme_score text
  /\ (search_install_v2 (lower text) = search_install_v1 (lower text) ->
      V2.readme_score text == V2._readme_score text).
Proof.
  pose proof (ReadmeFacts.len_signal_nonneg (lower text)) as L.
  pose proof (ReadmeFacts.heading_signal_nonneg text) as S.
  pose proof (ReadmeFacts.install_v1_v2 (lower text)) as I.
  unfold V2.readme_score, V2._readme_score.
  set (c := if contains "citation" (lower text) || contains "doi" (lower text)
            then 1 else 0.2) in *.
  assert (C : 0.2 <= c) by (unfold c; destruct (_ || _); lra).
  split.
  - apply ReadmeFacts.qmin_mono.
    eapply Qle_trans; [|apply NumFacts.qmax_ge_l].
    destruct (search_install_v1 (lower text)).
    + rewrite (I eq_refl). apply Qle_refl.
    + destruct (search_install_v2 (lower text)); lra.
  - intros ->.
    set (i := if search_install_v1 (lower text) then 1 else 0.3) in *.
    assert (Hi : 0.3 <= i) by (unfold i; destruct (search_install_v1 _); lra).
    unfold qmax at 1.
    destruct (Qle_bool _ 0) eqn:B; [|reflexivity].
    apply Qle_bool_iff in B. lra.
Qed.

Lemma readme_score_v1_below_v2_witness :
  V2.readme_score "run: pip install x" == V2._readme_score "run: pip install x".
Proof.
  apply (proj2 (readme_score_v1_below_v2 "run: pip install x")).
  reflexivity.
Defined.

(** ** More on the normalisers *)

Module MinmaxFacts.
Import NumFacts NormalizerFacts.

Lemma nth_error_zeros n i :
  (i < n)%nat -> nth_error (zeros n) i = Some (Fin 0).
Proof.
  unfold zeros. revert i. induction n as [|n IH]; intros i Hi; [lia|].
  destruct i as [|i]; simpl; [reflexivity|]. apply IH. lia.
Qed.

Lemma nth_error_in_range {A : Type} (l : list A) i x :
  nth_error l i = Some x -> (i < List.length l)%nat.
Proof.
  intro H. apply nth_error_Some. congruence.
Qed.

(** The bounds of a column that has a number. *)
Lemma bounds_exist x a :
  In (Fin a) x ->
  exists lo hi, pd_min x = Fin lo /\ pd_max x = Fin hi
                /\ lo <= a /\ a <= hi /\ In (Fin lo) x /\ In (Fin hi) x.
Proof.
  intro H.
  assert (Hf := proj2 (in_finite_values a x) H).
  destruct (pd_min x) as [lo|] eqn:Hlo;
    [|unfold pd_min, reduce in Hlo; destruct (finite_values x);
      [contradiction | discriminate]].
  destruct (pd_max x) as [hi|] eqn:Hhi;
    [|unfold pd_max, reduce in Hhi; destruct (finite_values x);
      [contradiction | discriminate]].
  destruct (pd_min_spec _ _ Hlo) as [Il Hmin].
  destruct (pd_max_spec _ _ Hhi) as [Ih Hmax].
  exists lo, hi. repeat split; auto.
Qed.

(** What [_minmax] makes of a cell that holds a number: 0 when the
    column has no two distinct numbers, the rescaled number otherwise. *)
Lemma minmax_cell x i a :
  nth_error x i = Some (Fin a) ->
  exists lo hi,
    pd_min x = Fin lo /\ pd_max x = Fin hi /\ lo <= a /\ a <= hi
    /\ ((hi == lo /\ nth_error (V2._minmax x) i = Some (Fin 0))
        \/ (lo < hi
            /\ nth_error (V2._minmax x) i
               = Some (Fin ((a - lo) / (hi - lo))))).
Proof.
  intro H.
  destruct (bounds_exist x a (nth_error_In _ _ H))
    as (lo & hi & Hlo & Hhi & L & U & _ & _).
  exists lo, hi. repeat split; auto.
  unfold V2._minmax. rewrite Hlo, Hhi. simpl.
  destruct (Qeq_bool hi lo) eqn:E.
  - left. apply Qeq_bool_iff in E. split; [exact E|].
    apply nth_error_zeros. now apply nth_error_in_range in H.
  - right. apply Qeq_bool_neq in E.
    assert (Hlt : lo < hi).
    { destruct (Qlt_le_dec lo hi) as [X|X]; [exact X|].
      exfalso. apply E. lra. }
    split; [exact Hlt|].
    rewrite nth_error_map, H. simpl.
    destruct (Qeq_bool (hi - lo) 0) eqn:Z; [|reflexivity].
    apply Qeq_bool_iff in Z. lra.
Qed.

Lemma div_mono a b d : 0 < d -> a <= b -> a / d <= b / d.
Proof.
  intros Hd H. apply Qle_shift_div_l; [exact Hd|].
  setoid_replace (a / d * d) with a by (field; lra). exact H.
Qed.

(** [_minmax] keeps the order of the numbers of a column. *)
Lemma minmax_monotone x i j a b :
  nth_error x i = Some (Fin a) -> nth_error x j = Some (Fin b) -> a <= b ->
  exists a' b',
    nth_error (V2._minmax x) i = Some (Fin a')
    /\ nth_error (V2._minmax x) j = Some (Fin b')
    /\ a' <= b'.
Proof.
  intros Hi Hj Hab.
  destruct (minmax_cell x i a Hi) as (lo & hi & Hlo & Hhi & _ & _ & Ci).
  destruct (minmax_cell x j b Hj) as (lo' & hi' & Hlo' & Hhi' & _ & _ & Cj).
  rewrite Hlo in Hlo'. rewrite Hhi in Hhi'.
  injection Hlo' as <-. injection Hhi' as <-.
  destruct Ci as [[E Ci]|[Lt Ci]], Cj as [[E' Cj]|[Lt' Cj]];
    try (exfalso; lra).
  - exists 0, 0. repeat split; auto. apply Qle_refl.
  - do 2 eexists. repeat split; eauto.
    apply div_mono; lra.
Qed.




End MinmaxFacts.





Module StalenessFacts.
Import NumFacts MinmaxFacts StaleFacts.






End StalenessFacts.



(** ** The derived issue resolution rate *)

Module RateFacts.

(** One row: the rate of two counts that are not negative. *)
Lemma rate_cell o c :
  0 <= o -> 0 <= c ->
  let r := (let total := fadd (Fin o) (Fin c) in
            if fgtb total (Fin 0) then fdiv (Fin c) total else NaN) in
  (o + c <= 0 -> r = NaN)
  /\ (0 < o + c -> r = Fin (c / (o + c)) /\ 0 <= c / (o + c) <= 1).
Proof.
  intros Ho Hc. simpl. split; intro H.
  - assert (B : Qle_bool (o + c) 0 = true) by now apply Qle_bool_iff.
    now rewrite B.
  - assert (B : Qle_bool (o + c) 0 = false).
    { destruct (Qle_bool (o + c) 0) eqn:B; [|reflexivity].
      apply Qle_bool_iff in B. lra. }
    assert (Z : Qeq_bool (o + c) 0 = false).
    { destruct (Qeq_bool (o + c) 0) eqn:Z; [|reflexivity].
      apply Qeq_bool_iff in Z. lra. }
    rewrite B, Z. simpl. split; [reflexivity|]. split.
    + apply Qle_shift_div_l; [exact H | lra].
    + apply Qle_shift_div_r; [exact H | lra].
Qed.

Lemma fillna_zero_nonneg xs :
  nonneg_col xs ->
  Forall (fun x => exists q, x = Fin q /\ 0 <= q) (fillna (Fin 0) xs).
Proof.
  unfold nonneg_col, fillna. intro H. rewrite Forall_map.
  revert H. apply Forall_impl. intros [q|] Hq.
  - eauto.
  - exists 0. split; [reflexivity | apply Qle_refl].
Qed.

Lemma rate_of_counts_range os : forall cs,
  Forall (fun x => exists q, x = Fin q /\ 0 <= q) os ->
  Forall (fun x => exists q, x = Fin q /\ 0 <= q) cs ->
  List.length os = List.length cs ->
  List.length (rate_of_counts os cs) = List.length os
  /\ Forall unit_or_missing (rate_of_counts os cs)
  /\ forall i o c,
       nth_error os i = Some (Fin o) -> nth_error cs i = Some (Fin c) ->
       (o + c <= 0 -> nth_error (rate_of_counts os cs) i = Some NaN)
       /\ (0 < o + c ->
           nth_error (rate_of_counts os cs) i = Some (Fin (c / (o + c)))).
Proof.
  induction os as [|x os IH]; intros [|y cs] Ho Hc Hlen;
    simpl in Hlen; try discriminate.
  - repeat split; try constructor; intros; destruct i; discriminate.
  - inversion Ho as [|? ? (o & -> & Hoq) Ho']; subst.
    inversion Hc as [|? ? (c & -> & Hcq) Hc']; subst.
    destruct (IH cs Ho' Hc') as (L & F & P); [congruence|].
    destruct (rate_cell o c Hoq Hcq) as [Rz Rp].
    unfold rate_of_counts in *. cbn [zip_with].
    split; [simpl; congruence|]. split.
    + constructor; [|exact F].
      destruct (Qlt_le_dec 0 (o + c)) as [X|X].
      * destruct (Rp X) as [-> U]. right. exact U.
      * left. now apply Rz.
    + intros [|i] o' c' Hi Hj; simpl in Hi, Hj.
      * injection Hi as <-. injection Hj as <-. simpl nth_error.
        split; intro X; f_equal; [now apply Rz | now apply Rp].
      * simpl nth_error. now apply P.
Qed.

End RateFacts.

(** X6.  The issue resolution rate that the scorers derive from open and
    closed issue counts that are not negative (a missing count is 0) has
    one cell per row; the cell is missing exactly for a row without any
    issue and is otherwise closed / (open + closed), a number of [0,1].
    Both scorers derive the same column. *)
Theorem derived_issue_rate_range (open_issues closed_issues : list fnum) :
  nonneg_col open_issues ->
  nonneg_col closed_issues ->
  List.length open_issues = List.length closed_issues ->
  let rate := V1.derived_issue_resolution_rate open_issues closed_issues in
  V2.derived_issue_resolution_rate open_issues closed_issues = rate
  /\ List.length rate = List.length open_issues
  /\ Forall unit_or_missing rate
  /\ forall i o c,
       nth_error (fillna (Fin 0) open_issues) i = Some (Fin o) ->
       nth_error (fillna (Fin 0) closed_issues) i = Some (Fin c) ->
       (o + c <= 0 -> nth_error rate i = Some NaN)
       /\ (0 < o + c -> nth_error rate i = Some (Fin (c / (o + c)))).
Proof.
  intros Ho Hc Hlen rate. split; [reflexivity|].
  destruct (RateFacts.rate_of_counts_range
              (fillna (Fin 0) open_issues) (fillna (Fin 0) closed_issues))
    as (L & F & P).
  - now apply RateFacts.fillna_zero_nonneg.
  - now apply RateFacts.fillna_zero_nonneg.
  - now rewrite !NumFacts.length_fillna.
  - rewrite NumFacts.length_fillna in L. auto.
Qed.

Lemma derived_issue_rate_range_witness :
  Forall unit_or_missing
    (V1.derived_issue_resolution_rate [Fin 0; Fin 1; NaN] [Fin 0; Fin 3; Fin 2]).
Proof.
  refine (proj1 (proj2 (proj2 (derived_issue_rate_range
            [Fin 0; Fin 1; NaN] [Fin 0; Fin 3; Fin 2] _ _ _))));
    [| |reflexivity];
    repeat constructor; discriminate.
Defined.

(** ** Sorted output *)

Module SortFacts.

Lemma before_total x y : before x y = false -> before y x = true.
Proof.
  destruct x as [a|], y as [b|]; simpl; try discriminate; auto.
  intro H. apply Qle_bool_iff.
  destruct (Qlt_le_dec a b) as [L|L]; [lra|].
  apply Qle_bool_iff in L. congruence.
Qed.

Section Rows.
Context {A : Type} (key : A -> fnum).

Lemma insert_by_sorted a l :
  Sorted (in_order key) l -> Sorted (in_order key) (insert_by key a l).
Proof.
  induction 1 as [|y l Hs IH Hd]; simpl.
  - repeat constructor.
  - destruct (before (key a) (key y)) eqn:E.
    + repeat constructor; assumption.
    + apply before_total in E. constructor; [exact IH|].
      destruct l as [|z l]; simpl.
      * now constructor.
      * inversion Hd; subst.
        destruct (before (key a) (key z)); now constructor.
Qed.

Lemma sort_desc_sorted l : Sorted (in_order key) (sort_desc key l).
Proof.
  induction l as [|a l IH]; simpl; [constructor|].
  now apply insert_by_sorted.
Qed.

Lemma insert_by_perm a l : Permutation (a :: l) (insert_by key a l).
Proof.
  induction l as [|y l IH]; simpl; [reflexivity|].
  destruct (before (key a) (key y)); [reflexivity|].
  rewrite perm_swap. now constructor.
Qed.

Lemma sort_desc_perm l : Permutation l (sort_desc key l).
Proof.
  induction l as [|a l IH]; simpl; [constructor|].
  rewrite <- insert_by_perm. now constructor.
Qed.

Lemma in_order_trans x y z :
  in_order key x y -> in_order key y z -> in_order key x z.
Proof.
  unfold in_order.
  destruct (key x) as [a|], (key y) as [b|], (key z) as [c|]; simpl;
    try discriminate; auto.
  rewrite !Qle_bool_iff. intros. lra.
Qed.

(** In the sorted rows, a row stands in order with every later row. *)
Lemma sort_desc_positions l i j x y :
  (i < j)%nat ->
  nth_error (sort_desc key l) i = Some x ->
  nth_error (sort_desc key l) j = Some y ->
  in_order key x y.
Proof.
  assert (S : StronglySorted (in_order key) (sort_desc key l)).
  { apply Sorted_StronglySorted; [|apply sort_desc_sorted].
    intros a b c. apply in_order_trans. }
  revert i j. induction S as [|a r Hs IH Ha]; intros i j Hij Hi Hj.
  - destruct i; discriminate.
  - destruct j as [|j]; [lia|]. simpl in Hj.
    destruct i as [|i]; simpl in Hi.
    + injection Hi as <-. rewrite Forall_forall in Ha.
      apply Ha. eapply nth_error_In; eauto.
    + apply (IH i j); auto. lia.
Qed.

End Rows.

End SortFacts.

(** ** The rows of the enriched scorer *)

Module RowFacts.
Import NumFacts NormalizerFacts TableFacts.

Local Open Scope string_scope.

Lemma Forall_nth {A : Type} (P : A -> Prop) l i d :
  Forall P l -> (i < List.length l)%nat -> P (nth i l d).
Proof.
  intros H Hi. rewrite Forall_forall in H. apply H. now apply nth_In.
Qed.

Lemma one_minus_in_unit col : Forall in_unit col -> Forall in_unit (one_minus col).
Proof.
  unfold one_minus. intro H. rewrite Forall_map. revert H.
  apply Forall_impl. intros [q|]; simpl; [lra | auto].
Qed.

Lemma irr_filled_complete irr : complete (V2.irr_filled irr).
Proof.
  unfold V2.irr_filled. destruct (pd_median irr); apply fillna_complete.
Qed.

Lemma stale_filled_complete days : complete (V2.stale_filled days).
Proof.
  unfold V2.stale_filled. destruct (pd_median days); apply fillna_complete.
Qed.

Lemma detect_domain_label text :
  In (V2._detect_domain text) ["bio"; "chem"; "material"; "ml"; "other"].
Proof.
  unfold V2._detect_domain.
  destruct (any_in V2.bio_keywords (lower text)); [simpl; tauto|].
  destruct (any_in V2.chem_keywords (lower text)); [simpl; tauto|].
  destruct (any_in V2.material_keywords (lower text)); [simpl; tauto|].
  destruct (any_in V2.ml_keywords (lower text)); simpl; tauto.
Qed.

Section Fetch.
Variable fetch : string -> string.

Lemma readme_cell_range repo_cell desc_cell :
  (nonempty (strip repo_cell) = false
   /\ V2.readme_score_cell fetch repo_cell desc_cell = Fin 0
   /\ V2.domain_cell fetch repo_cell desc_cell = "other")
  \/ (nonempty (strip repo_cell) = true
      /\ V2.readme_score_cell fetch repo_cell desc_cell
         = Fin (V2._readme_score (fetch (strip repo_cell)))
      /\ V2.domain_cell fetch repo_cell desc_cell
         = V2._detect_domain
             (desc_cell ++ " " ++ take 500 (fetch (strip repo_cell)))).
Proof.
  unfold V2.readme_score_cell, V2.domain_cell, V2.enrich.
  destruct (nonempty (strip repo_cell)); simpl; auto.
Qed.

(** Every returned row is a row of the frame with its added cells. *)
Lemma row_of_compute_scores df r :
  In r (V2.compute_scores fetch df) ->
  exists i, (i < List.length (V2.repo df))%nat
            /\ r = V2.row_at df (V2.score_columns fetch df) i.
Proof.
  unfold V2.compute_scores, V2.rows. intro H.
  apply in_sort_desc, in_map_iff in H. destruct H as (i & <- & Hi).
  apply in_seq in Hi. exists i. split; [lia | reflexivity].
Qed.

(** The signals of a row, whatever the frame holds. *)
Lemma row_signals df i :
  V2.well_formed df -> (i < List.length (V2.repo df))%nat ->
  let r := V2.row_at df (V2.score_columns fetch df) i in
  in_unit (V2.stars_n r) /\ in_unit (V2.commits_n r)
  /\ in_unit (V2.contributors_n r) /\ in_unit (V2.issues_n r)
  /\ in_unit (V2.staleness_n r)
  /\ V2.r_ci_test_score r = Fin 0
  /\ V2.r_readme_score r
     = V2.readme_score_cell fetch (nth i (V2.repo df) "")
                            (nth i (V2.description df) "")
  /\ V2.domain r
     = V2.domain_cell fetch (nth i (V2.repo df) "")
                      (nth i (V2.description df) "")
  /\ V2.domain_weight r =
     match dict_get (V2.domain r) V2.domain_weights with
     | Some w => w
     | None => Fin 1
     end
  /\ V2.composite_v2 r =
     fmul (V2.weighted_sum (V2.stars_n r) (V2.commits_n r)
             (V2.contributors_n r) (V2.issues_n r) (V2.staleness_n r)
             (V2.r_readme_score r) (V2.r_ci_test_score r))
          (V2.domain_weight r).
Proof.
  intros (Hd & Hs & Hc & Hk & Hi & Ht) Hlt r.
  remember (List.length (V2.repo df)) as n eqn:Hn.
  assert (Lz : List.length
            (zip_with (V2.readme_score_cell fetch) (V2.repo df) (V2.description df))
            = n) by (rewrite length_zip_with; congruence).
  assert (Ldom : List.length
            (zip_with (V2.domain_cell fetch) (V2.repo df) (V2.description df))
            = n) by (rewrite length_zip_with; congruence).
  unfold r, V2.row_at, V2.score_columns;
    cbn [V2.composite_v2 V2.stars_n V2.commits_n V2.contributors_n
         V2.issues_n V2.staleness_n V2.r_readme_score V2.r_ci_test_score
         V2.domain V2.domain_weight V2.c_stars_n V2.c_commits_n
         V2.c_contributors_n V2.c_issues_n V2.c_staleness_n V2.c_readme_score
         V2.c_ci_test_score V2.c_domain V2.c_domain_weight V2.c_composite_v2].
  assert (N : forall s, List.length s = n ->
                in_unit (nth i (V2._normalize_series s) NaN)).
  { intros s Ls. apply Forall_nth.
    - apply minmax_in_unit, fillna_complete.
    - unfold V2._normalize_series, V2._to_num.
      rewrite length_minmax, length_fillna. lia. }
  repeat split.
  - now apply N.
  - now apply N.
  - now apply N.
  - apply Forall_nth; [apply minmax_in_unit, irr_filled_complete|].
    unfold V2.irr_filled. rewrite length_minmax, length_fillna. lia.
  - apply Forall_nth;
      [apply one_minus_in_unit, minmax_in_unit, stale_filled_complete|].
    unfold one_minus, V2.stale_filled.
    rewrite length_map, length_minmax, length_fillna. lia.
  - apply Forall_nth; [|rewrite length_zeros; lia].
    apply Forall_forall. intros x Hx. now apply repeat_spec in Hx.
  - apply (nth_zip_with _ "" ""); congruence.
  - apply (nth_zip_with _ "" ""); congruence.
  - unfold fillna, V2.map_dict.
    rewrite (nth_map_in _ NaN NaN) by now rewrite length_map, Ldom.
    rewrite (nth_map_in _ "" NaN) by now rewrite Ldom.
    apply CompositeFacts.weight_cell.
  - apply (CompositeFacts.composite_cell n); auto;
      unfold V2._normalize_series, V2._to_num, one_minus, V2.irr_filled,
        V2.stale_filled, V2.map_dict;
      rewrite ?length_map, ?length_minmax, ?length_fillna, ?length_zeros,
        ?length_map; auto.
Qed.

End Fetch.

End RowFacts.

Local Open Scope string_scope.



(** X8.  In every row that [compute_scores] returns the domain is one of
    the five labels, so that its weight is always an entry of the table
    (1.0, 0.95, 0.9 or 1.05) and the default for unknown labels is never
    needed; a row whose repository name is blank keeps the domain other,
    the README score 0 and the weight 1, whatever the fetch would
    answer. *)
Theorem domain_of_rows (fetch : string -> string) (df : V2.frame) :
  V2.well_formed df ->
  Forall
    (fun r =>
       In (V2.domain r) ["bio"; "chem"; "material"; "ml"; "other"]
       /\ dict_get (V2.domain r) V2.domain_weights = Some (V2.domain_weight r)
       /\ In (V2.domain_weight r) [Fin 1; Fin 0.95; Fin 0.9; Fin 1.05]
       /\ (nonempty (strip (V2.r_repo r)) = false ->
           V2.domain r = "other" /\ V2.r_readme_score r = Fin 0
           /\ V2.domain_weight r = Fin 1))
    (V2.compute_scores fetch df).
Proof.
  intro Hwf. apply Forall_forall. intros r Hr.
  destruct (RowFacts.row_of_compute_scores fetch df r Hr) as (i & Hi & ->).
  destruct (RowFacts.row_signals fetch df i Hwf Hi)
    as (_ & _ & _ & _ & _ & _ & Rs & Dm & Dw & _).
  set (r := V2.row_at df (V2.score_columns fetch df) i) in *.
  assert (Rr : V2.r_repo r = nth i (V2.repo df) "") by reflexivity.
  rewrite Dw, Rs, Rr. clear Dw Rs Rr.
  destruct (RowFacts.readme_cell_range fetch (nth i (V2.repo df) "")
              (nth i (V2.description df) "")) as [(B & R & D)|(B & R & D)];
    rewrite Dm, D, B.
  - simpl. repeat split; auto; tauto.
  - match goal with
    | |- context [V2._detect_domain ?t] =>
        destruct (RowFacts.detect_domain_label t) as [<-|[<-|[<-|[<-|[<-|[]]]]]]
    end; simpl; repeat split; auto; try tauto; discriminate.
Qed.

Lemma domain_of_rows_witness :
  Forall (fun r => In (V2.domain r) ["bio"; "chem"; "material"; "ml"; "other"])
    (V2.compute_scores (fun _ => "# Protein tools")
       {| V2.repo := ["o/a"; " "];
          V2.description := ["deep model"; "crystal"];
          V2.stars := [Fin 10; Fin 2];
          V2.commits_window := [Fin 3; NaN];
          V2.contributors := [Fin 1; Fin 4];
          V2.issue_resolution_rate := [NaN; Fin 0.5];
          V2.days_since_last_update := [Fin 7; NaN] |}).
Proof.
  eapply Forall_impl;
    [|apply (domain_of_rows (fun _ => "# Protein tools")
               {| V2.repo := ["o/a"; " "];
                  V2.description := ["deep model"; "crystal"];
                  V2.stars := [Fin 10; Fin 2];
                  V2.commits_window := [Fin 3; NaN];
                  V2.contributors := [Fin 1; Fin 4];
                  V2.issue_resolution_rate := [NaN; Fin 0.5];
                  V2.days_since_last_update := [Fin 7; NaN] |})].
  - intros r H. apply H.
  - unfold V2.well_formed. simpl. repeat split.
Defined.

(** X9.  The rows that [compute_scores] returns are the scored rows of
    the frame, each once, and a row never has a lower composite score
    than a row that comes after it; the rows that the fusion writes are
    the merged rows, each once, a row never has a lower final score than
    a later row, and no row with a final score comes after a row without
    one. *)
Theorem outputs_are_sorted
  (fetch : string -> string) (df : V2.frame)
  (alpha beta : Q) (cands : list Fusion.candidate) (b : list Fusion.bench_row)
  (i j : nat) :
  (i < j)%nat ->
  (Permutation (V2.rows df (V2.score_columns fetch df))
               (V2.compute_scores fetch df)
   /\ forall r r' q q',
        nth_error (V2.compute_scores fetch df) i = Some r ->
        nth_error (V2.compute_scores fetch df) j = Some r' ->
        V2.composite_v2 r = Fin q -> V2.composite_v2 r' = Fin q' ->
        q' <= q)
  /\ (Permutation
        (map (Fusion.finalize alpha beta)
             (Fusion.merge_left cands (Fusion.bench_signal b)))
        (Fusion.fuse alpha beta cands b)
      /\ forall o o',
           nth_error (Fusion.fuse alpha beta cands b) i = Some o ->
           nth_error (Fusion.fuse alpha beta cands b) j = Some o' ->
           match Fusion.final_score o, Fusion.final_score o' with
           | Fin q, Fin q' => q' <= q
           | Fin _, NaN => True
           | NaN, Fin _ => False
           | NaN, NaN => True
           end).
Proof.
  intro Hij. split; split.
  - apply SortFacts.sort_desc_perm.
  - intros r r' q q' Hi Hj Hq Hq'.
    pose proof (SortFacts.sort_desc_positions _ _ _ _ _ _ Hij Hi Hj) as O.
    unfold in_order in O. rewrite Hq, Hq' in O. simpl in O.
    now apply Qle_bool_iff.
  - apply SortFacts.sort_desc_perm.
  - intros o o' Hi Hj.
    pose proof (SortFacts.sort_desc_positions _ _ _ _ _ _ Hij Hi Hj) as O.
    unfold in_order in O.
    destruct (Fusion.final_score o), (Fusion.final_score o'); simpl in O;
      auto; [now apply Qle_bool_iff | discriminate].
Qed.

Lemma outputs_are_sorted_witness :
  (0 < 1)%nat
  /\ exists o o',
       nth_error (Fusion.fuse 0.7 0.3
                    [ {| Fusion.repo := "o/a"; Fusion.composite_v2 := Fin 0.2 |};
                      {| Fusion.repo := "o/b"; Fusion.composite_v2 := Fin 0.9 |} ]
                    []) 0 = Some o
       /\ nth_error (Fusion.fuse 0.7 0.3
                    [ {| Fusion.repo := "o/a"; Fusion.composite_v2 := Fin 0.2 |};
                      {| Fusion.repo := "o/b"; Fusion.composite_v2 := Fin 0.9 |} ]
                    []) 1 = Some o'
       /\ match Fusion.final_score o, Fusion.final_score o' with
          | Fin q, Fin q' => q' <= q
          | Fin _, NaN => True
          | NaN, Fin _ => False
          | NaN, NaN => True
          end.
Proof.
  split; [exact Nat.lt_0_1|].
  eexists. eexists.
  split; [vm_compute; reflexivity|]. split; [vm_compute; reflexivity|].
  apply (proj2 (proj2 (outputs_are_sorted (fun _ => "")
           {| V2.repo := []; V2.description := []; V2.stars := [];
              V2.commits_window := []; V2.contributors := [];
              V2.issue_resolution_rate := [];
              V2.days_since_last_update := [] |}
           0.7 0.3
           [ {| Fusion.repo := "o/a"; Fusion.composite_v2 := Fin 0.2 |};
             {| Fusion.repo := "o/b"; Fusion.composite_v2 := Fin 0.9 |} ]
           [] 0%nat 1%nat (Nat.lt_0_1)))); vm_compute; reflexivity.
Defined.

(** ** The basic scorer on a whole frame *)

Module FrameFacts.
Import NumFacts NormalizerFacts TableFacts RowFacts.

Local Open Scope string_scope.


Lemma finite_values_fillna_missing x :
  finite_values (fillna NaN x) = finite_values x.
Proof.
  induction x as [|[q|] x IH]; simpl; congruence.
Qed.



Lemma length_nonempty {A : Type} (l : list A) n :
  List.length l = n -> (0 < n)%nat -> l <> [].
Proof. intros H Hn ->. simpl in H. lia. Qed.

Section Log.
Variable log1p : Q -> Q.

(** The five columns that [score_dataframe] scales, before its sort. *)
Lemma score_dataframe_ok df n w w1 w2 w3 w4 w5 col :
  V1.well_formed df n -> (0 < n)%nat ->
  V1.days_since_last_update df = Some col ->
  getitem w "stars" = Ok w1 -> getitem w "commits" = Ok w2 ->
  getitem w "contributors" = Ok w3 -> getitem w "issues" = Ok w4 ->
  getitem w "staleness" = Ok w5 ->
  let sn := V2._minmax (V1.prepared log1p (V1.stars df) "log1p_minmax") in
  let cn := V2._minmax (V1.prepared log1p (V1.commits_window df) "log1p_minmax") in
  let kn := V2._minmax (V1.prepared log1p (V1.contributors df) "log1p_minmax") in
  let isn := V2._minmax (V1.issues_filled (V1.issue_resolution_rate df)) in
  let stn := one_minus (V2._minmax (fillna (pd_median col) col)) in
  let comp :=
    col_add (col_add (col_add (col_add (scale w1 sn) (scale w2 cn))
                               (scale w3 kn)) (scale w4 isn))
            (scale w5 stn) in
  V1.score_dataframe log1p df w =
  Ok (V1.reorder (V1.argsort_desc comp)
        {| V1.stars_n := sn; V1.commits_n := cn; V1.contributors_n := kn;
           V1.issues_n := isn; V1.staleness_n := stn;
           V1.composite_score := comp |}).
Proof.
  intros (Hs & Hc & Hk & Hi & col' & Hd & Hl) Hn Hcol G1 G2 G3 G4 G5.
  rewrite Hcol in Hd. injection Hd as <-.
  intros sn cn kn isn stn comp.
  unfold V1.score_dataframe.
  rewrite !normalize_series_prepared.
  rewrite (minmax_scale_nonempty (V1.prepared log1p (V1.stars df) _))
    by (apply prepared_nonempty; eapply length_nonempty; eauto).
  rewrite (minmax_scale_nonempty (V1.prepared log1p (V1.commits_window df) _))
    by (apply prepared_nonempty; eapply length_nonempty; eauto).
  rewrite (minmax_scale_nonempty (V1.prepared log1p (V1.contributors df) _))
    by (apply prepared_nonempty; eapply length_nonempty; eauto).
  cbn [bind].
  rewrite (minmax_scale_nonempty (V1.issues_filled _)).
  2:{ apply (length_nonempty _ n); [|exact Hn].
      unfold V1.issues_filled. now rewrite length_fillna. }
  cbn [bind]. unfold V1.stale_filled, V1.stale_fill. rewrite Hcol. cbn [bind].
  rewrite (minmax_scale_nonempty (fillna _ col)).
  2:{ apply (length_nonempty _ n); [|exact Hn]. now rewrite length_fillna. }
  cbn [bind]. rewrite G1, G2, G3, G4, G5. reflexivity.
Qed.

End Log.





End FrameFacts.

Module WeightedFacts.
Import TableFacts.





End WeightedFacts.



(** X11.  [score_dataframe] stops with an error on three kinds of input:
    with [ValueError] on a frame without rows; with [KeyError] on a frame
    with rows that lacks the column of days (the fill value 180 written
    for that case is never used); with [KeyError] when one of the five
    weights is not in the weight table. *)
Theorem score_dataframe_errors
  (log1p : Q -> Q) (df : V1.frame) (n : nat) (w : dict fnum) :
  (V1.stars df = [] -> V1.score_dataframe log1p df w = Raise ValueError)
  /\ ((0 < n)%nat ->
      List.length (V1.stars df) = n ->
      List.length (V1.commits_window df) = n ->
      List.length (V1.contributors df) = n ->
      List.length (V1.issue_resolution_rate df) = n ->
      V1.days_since_last_update df = None ->
      V1.score_dataframe log1p df w = Raise KeyError)
  /\ ((0 < n)%nat ->
      V1.well_formed df n ->
      (exists k, In k ["stars"; "commits"; "contributors"; "issues"; "staleness"]
                 /\ dict_get k w = None) ->
      V1.score_dataframe log1p df w = Raise KeyError).
Proof.
  assert (Pre : forall m, (0 < m)%nat ->
      List.length (V1.stars df) = m ->
      List.length (V1.commits_window df) = m ->
      List.length (V1.contributors df) = m ->
      List.length (V1.issue_resolution_rate df) = m ->
      exists sn cn kn isn,
        V1.score_dataframe log1p df w =
        (stale <- V1.stale_filled df ;;
         stale_n <- V1._minmax_scale stale ;;
         let stn := one_minus stale_n in
         w_stars <- getitem w "stars" ;;
         w_commits <- getitem w "commits" ;;
         w_contributors <- getitem w "contributors" ;;
         w_issues <- getitem w "issues" ;;
         w_staleness <- getitem w "staleness" ;;
         let comp :=
           col_add (col_add (col_add (col_add (scale w_stars sn)
                                               (scale w_commits cn))
                                      (scale w_contributors kn))
                            (scale w_issues isn))
                   (scale w_staleness stn) in
         Ok (V1.reorder (V1.argsort_desc comp)
               {| V1.stars_n := sn; V1.commits_n := cn;
                  V1.contributors_n := kn; V1.issues_n := isn;
                  V1.staleness_n := stn; V1.composite_score := comp |}))).
  { intros m Hm Hs Hc Hk Hi. unfold V1.score_dataframe.
    rewrite !NormalizerFacts.normalize_series_prepared.
    rewrite (NormalizerFacts.minmax_scale_nonempty
               (V1.prepared log1p (V1.stars df) _))
      by (apply NormalizerFacts.prepared_nonempty;
          eapply FrameFacts.length_nonempty; eauto).
    rewrite (NormalizerFacts.minmax_scale_nonempty
               (V1.prepared log1p (V1.commits_window df) _))
      by (apply NormalizerFacts.prepared_nonempty;
          eapply FrameFacts.length_nonempty; eauto).
    rewrite (NormalizerFacts.minmax_scale_nonempty
               (V1.prepared log1p (V1.contributors df) _))
      by (apply NormalizerFacts.prepared_nonempty;
          eapply FrameFacts.length_nonempty; eauto).
    rewrite (NormalizerFacts.minmax_scale_nonempty (V1.issues_filled _)).
    2:{ apply (FrameFacts.length_nonempty _ m); [|exact Hm].
        unfold V1.issues_filled. now rewrite NumFacts.length_fillna. }
    cbn [bind]. do 4 eexists. reflexivity. }
  split; [|split].
  - intro E. unfold V1.score_dataframe, V1._normalize_series.
    rewrite E. reflexivity.
  - intros Hn Hs Hc Hk Hi Hd.
    destruct (Pre n Hn Hs Hc Hk Hi) as (sn & cn & kn & isn & ->).
    unfold V1.stale_filled. now rewrite Hd.
  - intros Hn (Hs & Hc & Hk & Hi & col & Hd & Hl) (k & Hin & Hk0).
    destruct (Pre n Hn Hs Hc Hk Hi) as (sn & cn & kn & isn & ->).
    unfold V1.stale_filled, V1.stale_fill. rewrite Hd. cbn [bind].
    rewrite (NormalizerFacts.minmax_scale_nonempty (fillna _ col)).
    2:{ apply (FrameFacts.length_nonempty _ n); [|exact Hn].
        now rewrite NumFacts.length_fillna. }
    cbn [bind]. unfold getitem.
    simpl in Hin.
    destruct (dict_get "stars" w) eqn:K1; [|reflexivity]. cbn [bind].
    destruct (dict_get "commits" w) eqn:K2; [|reflexivity]. cbn [bind].
    destruct (dict_get "contributors" w) eqn:K3; [|reflexivity]. cbn [bind].
    destruct (dict_get "issues" w) eqn:K4; [|reflexivity]. cbn [bind].
    destruct (dict_get "staleness" w) eqn:K5; [|reflexivity].
    exfalso.
    destruct Hin as [<-|[<-|[<-|[<-|[<-|[]]]]]]; congruence.
Qed.

Lemma score_dataframe_errors_witness :
  V1.score_dataframe (fun q => q)
    {| V1.stars := [Fin 10; Fin 2]; V1.commits_window := [Fin 3; NaN];
       V1.contributors := [Fin 1; Fin 4];
       V1.issue_resolution_rate := [NaN; Fin 0.5];
       V1.days_since_last_update := None |} V1.default = Raise KeyError.
Proof.
  apply (proj1 (proj2 (score_dataframe_errors (fun q => q)
    {| V1.stars := [Fin 10; Fin 2]; V1.commits_window := [Fin 3; NaN];
       V1.contributors := [Fin 1; Fin 4];
       V1.issue_resolution_rate := [NaN; Fin 0.5];
       V1.days_since_last_update := None |} 2 V1.default)));
    try reflexivity. lia.
Defined.

(** X12.  The weight table that [parse_weights] returns always holds the
    five weights, whatever the argument, so that the lookups of
    [score_dataframe] never raise and [score_dataframe] returns on every
    frame that has rows, its column of days and columns of one length. *)
Theorem parse_weights_has_the_five_keys
  (log1p : Q -> Q) (py_float : string -> option fnum) (arg : string)
  (df : V1.frame) (n : nat) :
  (forall k, In k ["stars"; "commits"; "contributors"; "issues"; "staleness"] ->
             exists v, getitem (V1.parse_weights py_float arg) k = Ok v)
  /\ (V1.well_formed df n -> (0 < n)%nat ->
      exists sc,
        V1.score_dataframe log1p df (V1.parse_weights py_float arg) = Ok sc).
Proof.
  assert (K : forall k,
             In k ["stars"; "commits"; "contributors"; "issues"; "staleness"] ->
             exists v, getitem (V1.parse_weights py_float arg) k = Ok v).
  { intros k Hk. unfold getitem, V1.parse_weights.
    destruct (nonempty arg); cbn [negb].
    - rewrite (WeightFacts.dict_get_map
                 (fun v => fdiv v (V1.total (V1.merged py_float arg)))).
      unfold V1.merged. rewrite WeightFacts.dict_get_merge.
      destruct (dict_get k (V1.overrides py_float arg)); [simpl; eauto|].
      simpl in Hk.
      destruct Hk as [<-|[<-|[<-|[<-|[<-|[]]]]]]; simpl; eauto.
    - simpl in Hk.
      destruct Hk as [<-|[<-|[<-|[<-|[<-|[]]]]]]; simpl; eauto. }
  split; [exact K|].
  intros Hwf Hn. pose proof Hwf as (_ & _ & _ & _ & col & Hd & _).
  destruct (K "stars") as [v1 G1]; [simpl; tauto|].
  destruct (K "commits") as [v2 G2]; [simpl; tauto|].
  destruct (K "contributors") as [v3 G3]; [simpl; tauto|].
  destruct (K "issues") as [v4 G4]; [simpl; tauto|].
  destruct (K "staleness") as [v5 G5]; [simpl; tauto|].
  eexists.
  apply (FrameFacts.score_dataframe_ok log1p df n _ v1 v2 v3 v4 v5 col);
    assumption.
Qed.

Lemma parse_weights_has_the_five_keys_witness :
  exists sc,
    V1.score_dataframe (fun q => q)
      {| V1.stars := [Fin 10; Fin 2]; V1.commits_window := [Fin 3; NaN];
         V1.contributors := [Fin 1; Fin 4];
         V1.issue_resolution_rate := [NaN; Fin 0.5];
         V1.days_since_last_update := Some [Fin 7; NaN] |}
      (V1.parse_weights V1.float_decimal "stars=2,bogus,x=y") = Ok sc.
Proof.
  apply (proj2 (parse_weights_has_the_five_keys (fun q => q) V1.float_decimal
                  "stars=2,bogus,x=y"
    {| V1.stars := [Fin 10; Fin 2]; V1.commits_window := [Fin 3; NaN];
       V1.contributors := [Fin 1; Fin 4];
       V1.issue_resolution_rate := [NaN; Fin 0.5];
       V1.days_since_last_update := Some [Fin 7; NaN] |} 2)).
  - repeat split. eexists. split; reflexivity.
  - lia.
Defined.

(** ** The column of the commit window *)

Module WindowFacts.

Local Open Scope Z_scope.

Section Int.
Variable py_int : string -> option Z.









End Int.

End WindowFacts.



(** ** The README found online *)

Module FetchFacts.

Local Open Scope string_scope.

Lemma length_lower s : String.length (lower s) = String.length s.
Proof. induction s; simpl; congruence. Qed.

Lemma first_readme_range get repo branches :
  V2.first_readme get repo branches = ""
  \/ (50 < String.length (V2.first_readme get repo branches))%nat.
Proof.
  induction branches as [|b r IH]; simpl; [now left|].
  destruct (get (V2.readme_url repo b)) as [t|]; [|exact IH].
  destruct (50 <? String.length t)%nat eqn:E; [|exact IH].
  right. now apply Nat.ltb_lt.
Qed.

(** A text of more than 50 characters scores above the floor. *)
Lemma long_text_scores_above_floor t :
  (50 < String.length t)%nat -> 0.08 < V2._readme_score t.
Proof.
  intro H. unfold V2._readme_score.
  pose proof (ReadmeFacts.heading_signal_nonneg t) as S.
  assert (L : 51 # 5000 <= qmin (V2.len (lower t) / 5000) 1).
  { apply qmin_lower; [|discriminate].
    apply Qle_shift_div_l; [reflexivity|].
    unfold V2.len. rewrite length_lower.
    unfold Qle. simpl. lia. }
  set (l := qmin (V2.len (lower t) / 5000) 1) in *.
  set (s := V2.count (count_headings t) / 10) in *.
  set (i := if search_install_v2 (lower t) then 1 else 0.3).
  set (c := if contains "citation" (lower t) || contains "doi" (lower t)
            then 1 else 0.2).
  assert (Hi : 0.3 <= i) by (unfold i; destruct (search_install_v2 _); lra).
  assert (Hc : 0.2 <= c) by (unfold c; destruct (_ || _); lra).
  assert (T : 0.08 < 0.4 * l + 0.3 * s + 0.2 * i + 0.1 * c) by lra.
  unfold qmin, qmax.
  destruct (Qle_bool (0.4 * l + 0.3 * s + 0.2 * i + 0.1 * c) 0) eqn:B.
  - apply Qle_bool_iff in B. lra.
  - destruct (Qle_bool _ 1); [exact T | reflexivity].
Qed.

End FetchFacts.

(** X14.  [_fetch_readme_online] asks for the README of the branch main
    and then of the branch master, and returns the first body of more
    than 50 characters; a request that fails or a shorter body is passed
    over, and without any such body the result is the empty text.  So
    the result is empty or longer than 50 characters, and its score is
    0.08 in the first case and above 0.08 in the second. *)
Theorem fetch_readme_online_spec
  (get : string -> option string) (repo : string) :
  let usable x := match x with
                  | Some t => (50 <? String.length t)%nat
                  | None => false
                  end in
  let on_main := get (V2.readme_url repo "main") in
  let on_master := get (V2.readme_url repo "master") in
  let r := V2._fetch_readme_online get repo in
  (forall t, on_main = Some t -> usable on_main = true -> r = t)
  /\ (forall t, usable on_main = false -> on_master = Some t ->
                usable on_master = true -> r = t)
  /\ (usable on_main = false -> usable on_master = false -> r = "")
  /\ (r = "" \/ (50 < String.length r)%nat)
  /\ (r = "" -> V2._readme_score r == 0.08)
  /\ (r <> "" -> 0.08 < V2._readme_score r).
Proof.
  intros usable on_main on_master r.
  assert (R : r = "" \/ (50 < String.length r)%nat)
    by apply FetchFacts.first_readme_range.
  unfold r, V2._fetch_readme_online, on_main, on_master, usable. simpl.
  repeat split.
  - intros t -> H. now rewrite H.
  - intros t H1 -> H2.
    destruct (get (V2.readme_url repo "main")) as [t0|];
      [rewrite H1|]; now rewrite H2.
  - intros H1 H2.
    destruct (get (V2.readme_url repo "main")) as [t0|]; [rewrite H1|];
      (destruct (get (V2.readme_url repo "master")) as [t1|];
       [now rewrite H2 | reflexivity]).
  - exact R.
  - fold (V2.first_readme get repo ["main"; "master"]).
    intros ->. vm_compute. reflexivity.
  - intro H. destruct R as [R|R]; [contradiction|].
    now apply FetchFacts.long_text_scores_above_floor.
Qed.

Lemma fetch_readme_online_spec_witness :
  V2._fetch_readme_online
    (fun u => if String.eqb u (V2.readme_url "o/r" "master")
              then Some "# Tool: pip install tool; see the citation and DOI below."
              else None) "o/r"
  = "# Tool: pip install tool; see the citation and DOI below.".
Proof.
  apply (proj1 (proj2 (fetch_readme_online_spec
           (fun u => if String.eqb u (V2.readme_url "o/r" "master")
                     then Some "# Tool: pip install tool; see the citation and DOI below."
                     else None) "o/r")));
    reflexivity.
Defined.

(** ** Loaded records and latency scores *)

Module LatencyFacts.
Import NumFacts MinmaxFacts Fusion.

(** The latency score of a cell of the filled column of elapsed times. *)
Lemma latency_cell elapsed i a :
  let filled := fillna (pd_max elapsed) elapsed in
  nth_error filled i = Some (Fin a) ->
  exists lo hi v,
    pd_min filled = Fin lo /\ pd_max filled = Fin hi
    /\ lo <= a /\ a <= hi
    /\ nth_error (latency_scores elapsed) i = Some (Fin v)
    /\ ((hi <= 0 /\ v = 0)
        \/ (0 < hi /\ hi <= lo /\ v == 1)
        \/ (0 < hi /\ lo < hi /\ v == 1 - (a - lo) / (hi - lo))).
Proof.
  intros filled Hi.
  destruct (bounds_exist filled a (nth_error_In _ _ Hi))
    as (lo & hi & Hlo & Hhi & L & U & _ & _).
  exists lo, hi.
  assert (Hlen : (List.length filled =? 0)%nat = false).
  { apply Nat.eqb_neq. apply nth_error_in_range in Hi. lia. }
  unfold latency_scores. fold filled. rewrite Hlen, Hlo, Hhi.
  cbn [negb andb fgtb].
  destruct (Qle_bool hi 0) eqn:B0; cbn [negb].
  - apply Qle_bool_iff in B0. exists 0.
    do 2 (split; [reflexivity|]). split; [exact L|]. split; [exact U|]. split.
    + apply nth_error_repeat. now apply nth_error_in_range in Hi.
    + left. split; [exact B0 | reflexivity].
  - assert (P : 0 < hi).
    { destruct (Qlt_le_dec 0 hi) as [X|X]; [exact X|].
      apply Qle_bool_iff in X. congruence. }
    rewrite nth_error_map, Hi. cbn [option_map].
    destruct (Qle_bool hi lo) eqn:B1; cbn [negb].
    + apply Qle_bool_iff in B1.
      eexists.
      do 2 (split; [reflexivity|]). split; [exact L|]. split; [exact U|].
      split; [reflexivity|].
      right. left. split; [exact P|]. split; [exact B1|].
      simpl. field_simplify_eq. lra.
    + assert (Lt : lo < hi).
      { destruct (Qlt_le_dec lo hi) as [X|X]; [exact X|].
        apply Qle_bool_iff in X. congruence. }
      assert (Z : Qeq_bool (hi - lo) 0 = false).
      { destruct (Qeq_bool (hi - lo) 0) eqn:Z; [|reflexivity].
        apply Qeq_bool_iff in Z. lra. }
      simpl. rewrite Z. simpl.
      eexists.
      do 2 (split; [reflexivity|]). split; [exact L|]. split; [exact U|].
      split; [reflexivity|].
      right. right. split; [exact P|]. split; [exact Lt|]. reflexivity.
Qed.


Lemma latency_in_unit elapsed : Forall in_unit (latency_scores elapsed).
Proof.
  apply Forall_forall. intros y Hy.
  destruct (In_nth_error _ _ Hy) as [i Hi].
  assert (Hlt : (i < List.length elapsed)%nat).
  { apply nth_error_in_range in Hi.
    now rewrite FusionFacts.length_latency_scores in Hi. }
  destruct (nth_error (fillna (pd_max elapsed) elapsed) i) as [[a|]|] eqn:F.
  - destruct (latency_cell elapsed i a F)
      as (lo & hi & v & _ & _ & L & U & Hv & C).
    rewrite Hv in Hi. injection Hi as <-. simpl.
    destruct C as [[_ ->]|[(_ & _ & E)|(P & Lt & E)]].
    + split; [apply Qle_refl | discriminate].
    + rewrite E. split; discriminate.
    + rewrite E.
      assert (0 <= (a - lo) / (hi - lo) /\ (a - lo) / (hi - lo) <= 1).
      { split; [apply Qle_shift_div_l | apply Qle_shift_div_r]; lra. }
      lra.
  - (* the cell is still missing: the column has no time at all *)
    assert (M : pd_max elapsed = NaN).
    { destruct (pd_max elapsed) as [h|] eqn:E; [|reflexivity].
      exfalso. unfold fillna in F. rewrite nth_error_map in F.
      destruct (nth_error elapsed i) as [[q|]|]; simpl in F; discriminate. }
    unfold latency_scores in Hy. rewrite M in Hy.
    assert (X : pd_max (fillna NaN elapsed) = NaN).
    { unfold pd_max in *. now rewrite FrameFacts.finite_values_fillna_missing. }
    rewrite X in Hy. simpl fgtb in Hy. rewrite andb_false_r in Hy.
    apply repeat_spec in Hy. subst y.
    split; [apply Qle_refl | discriminate].
  - exfalso. apply nth_error_None in F.
    rewrite length_fillna in F. lia.
Qed.

End LatencyFacts.

(** X15.  A loaded record carries a pass or fail verdict only when its
    "skipped" field is the boolean false: a record loaded as skipped
    never has one, and the verdict is then the truth value of the
    "passed" field; a record counts as passed only if it is not skipped
    and that truth value is true. *)
Theorem loaded_record_verdict (it : Fusion.item) :
  let r := Fusion.load_item it in
  (Fusion.skipped r = true -> Fusion.passed r = None)
  /\ (forall p, Fusion.passed r = Some p ->
                Fusion.it_skipped it = Some (Fusion.JBool false)
                /\ Fusion.skipped r = false
                /\ p = Fusion.py_bool (Fusion.it_passed it))
  /\ (Fusion.pass_of (Fusion.passed r) = Fin 1 <->
      Fusion.it_skipped it = Some (Fusion.JBool false)
      /\ Fusion.py_bool (Fusion.it_passed it) = true).
Proof.
  unfold Fusion.load_item. cbn [Fusion.skipped Fusion.passed].
  destruct (Fusion.it_skipped it) as [[|[|]|q|s]|]; cbn;
    repeat split; intros; try discriminate; try tauto;
    try (destruct H; discriminate);
    try (destruct (Qeq_bool q 0); discriminate).
  - now injection H as <-.
  - destruct (Fusion.py_bool (Fusion.it_passed it)); [reflexivity|].
    discriminate.
  - destruct H as [_ ->]. reflexivity.
Qed.

Lemma loaded_record_verdict_witness :
  Fusion.passed
    (Fusion.load_item
       {| Fusion.it_name := Some "galaxy";
          Fusion.it_passed := Some (Fusion.JBool true);
          Fusion.it_skipped := Some (Fusion.JBool true);
          Fusion.it_elapsed_s := None |}) = None.
Proof.
  apply (proj1 (loaded_record_verdict
           {| Fusion.it_name := Some "galaxy";
              Fusion.it_passed := Some (Fusion.JBool true);
              Fusion.it_skipped := Some (Fusion.JBool true);
              Fusion.it_elapsed_s := None |})).
  reflexivity.
Defined.

Module LatencyOrder.
Import NumFacts MinmaxFacts Fusion LatencyFacts.


End LatencyOrder.



Module BenchFacts.
Import Fusion TableFacts.

(** Each signal carries the weighted sum of its own two scores. *)
Lemma signals_weighted (wa wb : fnum) (ks : list string) :
  forall (ps ls : list fnum),
    List.length ps = List.length ks -> List.length ls = List.length ks ->
    Forall (fun s => bench_score s
                     = fadd (fmul wa (pass_score s)) (fmul wb (latency_score s)))
      (zip_with (fun kp lb => {| key := fst kp; pass_score := snd kp;
                                 latency_score := fst lb;
                                 bench_score := snd lb |})
                (combine ks ps)
                (combine ls (col_add (scale wa ps) (scale wb ls)))).
Proof.
  induction ks as [|k ks IH]; intros [|p ps] [|l ls] Hp Hl; simpl in *;
    try discriminate; constructor.
  - reflexivity.
  - apply IH; congruence.
Qed.

Lemma bench_signal_weighted b :
  Forall (fun s => bench_score s
                   = fadd (fmul (Fin 0.7) (pass_score s))
                          (fmul (Fin 0.3) (latency_score s)))
         (bench_signal b).
Proof.
  unfold bench_signal. apply signals_weighted.
  - now rewrite !length_map.
  - now rewrite FusionFacts.length_latency_scores, !length_map.
Qed.

Lemma pass_of_cases v : pass_of v = Fin 0 \/ pass_of v = Fin 1.
Proof. destruct v as [[|]|]; simpl; auto. Qed.

(** The scores of a signal. *)
Lemma signal_range b :
  Forall
    (fun s =>
       exists p l,
         pass_score s = Fin p /\ (p = 0 \/ p = 1)
         /\ latency_score s = Fin l /\ 0 <= l /\ l <= 1
         /\ bench_score s = Fin (0.7 * p + 0.3 * l))
    (bench_signal b).
Proof.
  destruct (FusionFacts.bench_signal_columns b) as (K & P & L).
  pose proof (bench_signal_weighted b) as W.
  assert (Lu : Forall (fun s => in_unit (latency_score s)) (bench_signal b)).
  { rewrite <- Forall_map, L. apply LatencyFacts.latency_in_unit. }
  assert (Pu : Forall (fun s => pass_score s = Fin 0 \/ pass_score s = Fin 1)
                      (bench_signal b)).
  { rewrite <- (Forall_map pass_score (fun x => x = Fin 0 \/ x = Fin 1)), P.
    rewrite Forall_map. apply Forall_forall. intros r _.
    apply pass_of_cases. }
  rewrite Forall_forall in *. intros s Hs.
  specialize (W s Hs). specialize (Lu s Hs). specialize (Pu s Hs).
  destruct (latency_score s) as [l|]; [|contradiction].
  simpl in Lu. destruct Lu as [L0 L1].
  destruct Pu as [Ep|Ep]; rewrite Ep in W |- *.
  - exists 0, l. repeat split; auto.
  - exists 1, l. repeat split; auto.
Qed.

End BenchFacts.


Module JoinFacts.
Import Fusion.

Lemma merge_left_length df bx :
  (List.length df <= List.length (merge_left df bx))%nat.
Proof.
  unfold merge_left. induction df as [|c df IH]; [simpl; lia|].
  cbn [flat_map]. rewrite length_app.
  match goal with
  | |- (_ <= List.length ?x + _)%nat =>
      assert (H1 : (1 <= List.length x)%nat)
  end.
  { destruct (filter (fun s => String.eqb (key s) (repo_to_key (repo c))) bx);
      simpl; lia. }
  simpl List.length at 1. lia.
Qed.

(** Every candidate is in the merged rows, with or without a signal. *)
Lemma merge_left_keeps df bx c :
  In c df -> exists m, In (c, m) (merge_left df bx).
Proof.
  intro Hc.
  destruct (filter (fun s => String.eqb (key s) (repo_to_key (repo c))) bx)
    as [|s ms] eqn:F.
  - exists None. now apply MergeFacts.merge_left_unmatched.
  - exists (Some s). unfold merge_left. apply in_flat_map.
    exists c. split; [exact Hc|]. rewrite F. now left.
Qed.

End JoinFacts.

(** X18.  The fusion is a left join: when the benchmark file holds a
    record, every candidate is written at least once, with its
    repository name and composite score, and nothing else is written: no
    row comes from the benchmark alone.  In every written row the bench
    score is a number of [0,1], never missing: it is 0 or the bench score
    of a signal with the key of the row; and the final score is alpha
    times the composite score plus beta times that bench score. *)
Theorem fusion_is_a_left_join
  (alpha beta : Q) (df : list Fusion.candidate) (items : list Fusion.item) :
  items <> [] ->
  exists out,
    Fusion.main alpha beta df items = Ok out
    /\ (List.length df <= List.length out)%nat
    /\ (forall c, In c df ->
          exists o, In o out
                    /\ Fusion.f_repo o = Fusion.repo c
                    /\ Fusion.f_composite_v2 o = Fusion.composite_v2 c)
    /\ (forall o, In o out ->
          (exists c, In c df
                     /\ Fusion.f_repo o = Fusion.repo c
                     /\ Fusion.f_composite_v2 o = Fusion.composite_v2 c
                     /\ Fusion.f_key o = Fusion.repo_to_key (Fusion.repo c))
          /\ exists q,
               Fusion.f_bench_score o = Fin q /\ 0 <= q /\ q <= 1
               /\ (q = 0
                   \/ exists s,
                        In s (Fusion.bench_signal (Fusion.load_bench items))
                        /\ Fusion.key s = Fusion.f_key o
                        /\ Fusion.bench_score s = Fin q)
               /\ Fusion.final_score o
                  = fadd (fmul (Fin alpha) (Fusion.f_composite_v2 o))
                         (Fin (beta * q))).
Proof.
  intro Hne.
  exists (Fusion.fuse alpha beta df (Fusion.load_bench items)).
  split.
  { unfold Fusion.main. destruct items; [contradiction | reflexivity]. }
  split; [|split].
  - unfold Fusion.fuse.
    rewrite TableFacts.length_sort_desc, length_map.
    apply JoinFacts.merge_left_length.
  - intros c Hc.
    destruct (JoinFacts.merge_left_keeps df
                (Fusion.bench_signal (Fusion.load_bench items)) c Hc)
      as [m Hm].
    exists (Fusion.finalize alpha beta (c, m)). split; [|split; reflexivity].
    unfold Fusion.fuse. apply TableFacts.in_sort_desc.
    apply (in_map (Fusion.finalize alpha beta)) in Hm. exact Hm.
  - intros o Ho. unfold Fusion.fuse in Ho.
    apply TableFacts.in_sort_desc, in_map_iff in Ho.
    destruct Ho as ([c m] & <- & Hin).
    apply MergeFacts.merge_left_inv in Hin. destruct Hin as [Hc Hm].
    split; [exists c; repeat split; auto|].
    destruct m as [s|].
    + destruct Hm as [Hs Hk].
      pose proof (BenchFacts.signal_range (Fusion.load_bench items)) as R.
      rewrite Forall_forall in R.
      destruct (R s Hs) as (p & l & _ & Cp & _ & L0 & L1 & Eb).
      exists (0.7 * p + 0.3 * l).
      unfold Fusion.finalize. simpl. rewrite Eb.
      split; [reflexivity|].
      split; [destruct Cp as [->| ->]; lra|].
      split; [destruct Cp as [->| ->]; lra|].
      split; [|reflexivity].
      right. exists s. auto.
    + exists 0. unfold Fusion.finalize. simpl.
      repeat split; auto; try discriminate.
Qed.

Lemma fusion_is_a_left_join_witness :
  exists out,
    Fusion.main 0.7 0.3
      [ {| Fusion.repo := "owner/Tool"; Fusion.composite_v2 := Fin 0.5 |} ]
      [ {| Fusion.it_name := Some "tool";
           Fusion.it_passed := Some (Fusion.JBool true);
           Fusion.it_skipped := Some (Fusion.JBool false);
           Fusion.it_elapsed_s := Some 2 |} ] = Ok out
    /\ (1 <= List.length out)%nat.
Proof.
  destruct (fusion_is_a_left_join 0.7 0.3
      [ {| Fusion.repo := "owner/Tool"; Fusion.composite_v2 := Fin 0.5 |} ]
      [ {| Fusion.it_name := Some "tool";
           Fusion.it_passed := Some (Fusion.JBool true);
           Fusion.it_skipped := Some (Fusion.JBool false);
           Fusion.it_elapsed_s := Some 2 |} ]) as (out & H & L & _).
  - discriminate.
  - exists out. split; [exact H | exact L].
Defined.

(** ** Join keys *)

Module KeyFacts.

Local Open Scope string_scope.

Lemma lower_char_idempotent c : lower_char (lower_char c) = lower_char c.
Proof.
  destruct c as [[] [] [] [] [] [] [] []]; reflexivity.
Qed.

Lemma lower_idempotent s : lower (lower s) = lower s.
Proof.
  induction s as [|c s IH]; simpl; [reflexivity|].
  now rewrite lower_char_idempotent, IH.
Qed.

Lemma contains_cons_false k c s :
  contains k (String c s) = false ->
  prefix k (String c s) = false /\ contains k s = false.
Proof.
  cbn [contains]. destruct (prefix k (String c s)); [discriminate | auto].
Qed.

(** A text without the separator is its own single piece. *)
Lemma split_without_sep s :
  contains "/" s = false -> split "/" s = [s].
Proof.
  induction s as [|c s IH]; intro H; [reflexivity|].
  apply contains_cons_false in H. destruct H as [P H].
  simpl in P. cbn [split].
  destruct (Ascii.eqb c "/") eqn:E.
  - apply Ascii.eqb_eq in E. subst c. simpl in P.
    destruct s; discriminate.
  - now rewrite (IH H).
Qed.

(** The pieces of a text always exist. *)
Lemma split_not_nil sep s : split sep s <> [].
Proof.
  destruct s as [|c s]; simpl; [discriminate|].
  destruct (Ascii.eqb c sep); [discriminate|].
  destruct (split sep s); discriminate.
Qed.

Lemma last_cons_nonempty {A : Type} (x : A) l d :
  l <> [] -> last (x :: l) d = last l d.
Proof. destruct l; [contradiction | reflexivity]. Qed.

(** The last piece of [a/n] is [n] when [n] has no separator. *)
Lemma last_split a n :
  contains "/" n = false ->
  exists h t, split "/" (a ++ String "/" n) = h :: t
              /\ t <> [] /\ last t "" = n.
Proof.
  intro Hn. induction a as [|c a IH]; simpl.
  - exists "", (split "/" n). split; [reflexivity|].
    split; [apply split_not_nil|].
    now rewrite (split_without_sep n Hn).
  - destruct IH as (h & t & E & Ht & L).
    destruct (Ascii.eqb c "/").
    + exists "", (split "/" (a ++ String "/" n)).
      split; [reflexivity|]. split; [apply split_not_nil|].
      rewrite E. now rewrite last_cons_nonempty.
    + rewrite E. exists (String c h), t. auto.
Qed.

Lemma contains_sep_app a n : contains "/" (a ++ String "/" n) = true.
Proof.
  apply TextFacts.contains_occurs. exists a, n. reflexivity.
Qed.

Lemma repo_to_key_basename owner name :
  contains "/" name = false ->
  Fusion.repo_to_key (owner ++ "/" ++ name) = lower name.
Proof.
  intro H. unfold Fusion.repo_to_key.
  change (owner ++ "/" ++ name) with (owner ++ String "/" name).
  rewrite contains_sep_app.
  destruct (last_split owner name H) as (h & t & -> & Ht & L).
  now rewrite last_cons_nonempty, L.
Qed.

End KeyFacts.

Local Open Scope string_scope.

(** X19.  The join key of a candidate is the last segment of its
    repository name in lower case, so that two owners of one repository
    name share a key and the join sets letter case apart; the key of a
    repository name without a slash is the name in lower case; every key
    is in lower case; and a benchmark record whose name has no alias
    joins a candidate exactly when their names agree up to letter case. *)
Theorem join_key_is_basename (owner name : string) :
  contains "/" name = false ->
  Fusion.repo_to_key (owner ++ "/" ++ name) = lower name
  /\ Fusion.repo_to_key name = lower name
  /\ (forall owner' name',
        contains "/" name' = false -> lower name' = lower name ->
        Fusion.repo_to_key (owner' ++ "/" ++ name')
        = Fusion.repo_to_key (owner ++ "/" ++ name))
  /\ (forall r, lower (Fusion.repo_to_key r) = Fusion.repo_to_key r)
  /\ (forall x, lower (Fusion.bench_key x) = Fusion.bench_key x)
  /\ (forall x, dict_get x Fusion.alias = None ->
        (Fusion.bench_key x = Fusion.repo_to_key (owner ++ "/" ++ name)
         <-> lower x = lower name)).
Proof.
  intro H.
  pose proof (KeyFacts.repo_to_key_basename owner name H) as K.
  split; [exact K|]. split; [|split; [|split; [|split]]].
  - unfold Fusion.repo_to_key. now rewrite H.
  - intros owner' name' H' E.
    now rewrite K, (KeyFacts.repo_to_key_basename owner' name' H').
  - intro r. unfold Fusion.repo_to_key.
    destruct (contains "/" r); apply KeyFacts.lower_idempotent.
  - intro x. unfold Fusion.bench_key. apply KeyFacts.lower_idempotent.
  - intros x Hx. unfold Fusion.bench_key. rewrite Hx, K. tauto.
Qed.

Lemma join_key_is_basename_witness :
  Fusion.repo_to_key ("Owner" ++ "/" ++ "BioTool") = lower "BioTool".
Proof.
  apply (proj1 (join_key_is_basename "Owner" "BioTool" eq_refl)).
Defined.

(** X20.  The alias table turns the benchmark names biopython and
    scikit-bio into the keys bio and skbio: a record with one of these
    two names is never joined to a repository of that name, whoever owns
    it, while the alias of mdanalysis changes nothing. *)
Theorem alias_diverts_the_join (owner x : string) :
  In x ["biopython"; "scikit-bio"] ->
  Fusion.bench_key x <> Fusion.repo_to_key (owner ++ "/" ++ x)
  /\ Fusion.bench_key "mdanalysis"
     = Fusion.repo_to_key (owner ++ "/" ++ "mdanalysis").
Proof.
  intro Hx. split.
  - destruct Hx as [<-|[<-|[]]];
      rewrite KeyFacts.repo_to_key_basename by reflexivity; discriminate.
  - now rewrite KeyFacts.repo_to_key_basename by reflexivity.
Qed.

Lemma alias_diverts_the_join_witness :
  Fusion.bench_key "biopython"
  <> Fusion.repo_to_key ("biopython" ++ "/" ++ "biopython").
Proof.
  apply (proj1 (alias_diverts_the_join "biopython" "biopython"
                  (or_introl eq_refl))).
Defined.

(** ** The CI and test score *)

(** X21.  [ci_test_score] is 0 for a path that is not a directory;
    for a directory it is 0, 0.4, 0.6 or 1: 0.6 for a file whose base
    name holds "test" (letter case apart) plus 0.4 for a path that holds
    a CI marker; and finding more files never lowers it. *)
Theorem ci_test_score_values (isdir : bool) (files more : list string) :
  (isdir = false -> V2.ci_test_score isdir files = 0)
  /\ (V2.ci_test_score isdir files == 0
      \/ V2.ci_test_score isdir files == 0.4
      \/ V2.ci_test_score isdir files == 0.6
      \/ V2.ci_test_score isdir files == 1)
  /\ (V2.ci_test_score true files == 1 <->
      (exists f, In f files /\ contains "test" (lower (basename f)) = true)
      /\ (exists f, In f files
                    /\ (contains ".github/workflows" f = true
                        \/ contains "ci.yml" f = true
                        \/ contains "actions" f = true)))
  /\ V2.ci_test_score isdir files <= V2.ci_test_score isdir (files ++ more)%list.
Proof.
  unfold V2.ci_test_score.
  set (ci := fun f => contains ".github/workflows" f || contains "ci.yml" f
                      || contains "actions" f).
  set (ts := fun f => contains "test" (lower (basename f))).
  split; [intros ->; reflexivity|]. split; [|split].
  - destruct isdir; cbn [negb]; [|left; reflexivity].
    destruct (existsb ts files), (existsb ci files); cbn [V2.b2q];
      [right; right; right | right; right; left | right; left | left];
      reflexivity.
  - cbn [negb].
    assert (T : existsb ts files = true <->
                exists f, In f files /\ contains "test" (lower (basename f)) = true)
      by apply existsb_exists.
    assert (C : existsb ci files = true <->
                exists f, In f files
                          /\ (contains ".github/workflows" f = true
                              \/ contains "ci.yml" f = true
                              \/ contains "actions" f = true)).
    { rewrite existsb_exists. unfold ci.
      split; intros (f & Hf & H); exists f; (split; [exact Hf|]).
      - apply orb_true_iff in H. destruct H as [H|H]; [|auto].
        apply orb_true_iff in H. tauto.
      - destruct H as [H|[H|H]]; rewrite H; rewrite ?orb_true_r; reflexivity. }
    rewrite <- T, <- C.
    destruct (existsb ts files), (existsb ci files); cbn [V2.b2q];
      split; intro H; try reflexivity; try tauto;
      try (exfalso; revert H; vm_compute; discriminate);
      try (destruct H; discriminate).
  - destruct isdir; cbn [negb]; [|apply Qle_refl].
    rewrite !existsb_app.
    destruct (existsb ts files), (existsb ci files),
      (existsb ts more), (existsb ci more); cbn [orb V2.b2q]; lra.
Qed.

Lemma ci_test_score_values_witness : V2.ci_test_score false ["a/test_x.py"] = 0.
Proof.
  apply (proj1 (ci_test_score_values false ["a/test_x.py"] [])).
  reflexivity.
Defined.

(** ** The log strategy *)

Module LogFacts.
Import NumFacts MinmaxFacts.

Section Log.
Variable log1p : Q -> Q.

(** The cell that the log strategy prepares from a cell of the column. *)
Lemma prepared_cell s i x :
  nth_error s i = Some x ->
  nth_error (V1.prepared log1p s "log1p_minmax") i
  = Some (Fin (log1p (match x with Fin q => qmax q 0 | NaN => 0 end))).
Proof.
  intro H. unfold V1.prepared. cbn [String.eqb Ascii.eqb Bool.eqb andb].
  unfold V1._log1p_safe, fillna. rewrite !nth_error_map, H.
  destruct x; reflexivity.
Qed.

(** Two cells of one value get one scaled value. *)
Lemma minmax_same_cell x i j a :
  nth_error x i = Some (Fin a) -> nth_error x j = Some (Fin a) ->
  nth_error (V2._minmax x) i = nth_error (V2._minmax x) j.
Proof.
  intros Hi Hj.
  destruct (minmax_cell x i a Hi) as (lo & hi & Hlo & Hhi & _ & _ & Ci).
  destruct (minmax_cell x j a Hj) as (lo' & hi' & Hlo' & Hhi' & _ & _ & Cj).
  rewrite Hlo in Hlo'. rewrite Hhi in Hhi'.
  injection Hlo' as <-. injection Hhi' as <-.
  destruct Ci as [[E Ci]|[Lt Ci]], Cj as [[E' Cj]|[Lt' Cj]];
    try (exfalso; lra); congruence.
Qed.

Lemma qmax_zero q : q <= 0 -> qmax q 0 = 0.
Proof.
  intro H. unfold qmax.
  assert (B : Qle_bool q 0 = true) by now apply Qle_bool_iff.
  now rewrite B.
Qed.

Lemma qmax_mono a b : a <= b -> qmax a 0 <= qmax b 0.
Proof.
  intro H. unfold qmax.
  destruct (Qle_bool a 0) eqn:A, (Qle_bool b 0) eqn:B;
    try apply Qle_refl; auto.
  - apply Qlt_le_weak, Qnot_le_lt. intro X.
    apply Qle_bool_iff in X. congruence.
  - apply Qle_bool_iff in B.
    assert (X : Qle_bool a 0 = true) by (apply Qle_bool_iff; lra).
    congruence.
Qed.

Lemma qmax_nonneg a : 0 <= qmax a 0.
Proof. apply NumFacts.qmax_ge_r. Qed.

End Log.

End LogFacts.

(** X22.  Under the log strategy of the basic scorer a missing count and
    a negative count are scored exactly as a count of 0; and when
    [log1p] does not decrease on the numbers that are not negative, the
    scores keep the order of the counts. *)
Theorem log_strategy_clamps_and_keeps_order
  (log1p : Q -> Q) (s : list fnum) (i j : nat) (x y : fnum) :
  nth_error s i = Some x ->
  nth_error s j = Some y ->
  exists out,
    V1._normalize_series log1p s "log1p_minmax" = Ok out
    /\ (match x with Fin a => a <= 0 | NaN => True end ->
        match y with Fin b => b <= 0 | NaN => True end ->
        nth_error out i = nth_error out j)
    /\ ((forall u v, 0 <= u -> u <= v -> log1p u <= log1p v) ->
        forall a b, x = Fin a -> y = Fin b -> a <= b ->
        exists a' b', nth_error out i = Some (Fin a')
                      /\ nth_error out j = Some (Fin b') /\ a' <= b').
Proof.
  intros Hi Hj.
  exists (V2._minmax (V1.prepared log1p s "log1p_minmax")).
  split.
  { rewrite NormalizerFacts.normalize_series_prepared.
    apply NormalizerFacts.minmax_scale_nonempty.
    apply NormalizerFacts.prepared_nonempty.
    intros ->. destruct i; discriminate. }
  pose proof (LogFacts.prepared_cell log1p s i x Hi) as Pi.
  pose proof (LogFacts.prepared_cell log1p s j y Hj) as Pj.
  split.
  - intros Hx Hy.
    assert (Ex : (match x with Fin q => qmax q 0 | NaN => 0 end) = 0)
      by (destruct x; [now apply LogFacts.qmax_zero | reflexivity]).
    assert (Ey : (match y with Fin q => qmax q 0 | NaN => 0 end) = 0)
      by (destruct y; [now apply LogFacts.qmax_zero | reflexivity]).
    rewrite Ex in Pi. rewrite Ey in Pj.
    exact (LogFacts.minmax_same_cell _ _ _ _ Pi Pj).
  - intros Hmono a b -> -> Hab.
    apply (MinmaxFacts.minmax_monotone _ _ _ _ _ Pi Pj).
    apply Hmono; [apply LogFacts.qmax_nonneg | now apply LogFacts.qmax_mono].
Qed.

Lemma log_strategy_clamps_and_keeps_order_witness :
  exists out,
    V1._normalize_series (fun q => q) [NaN; Fin (-3); Fin 7] "log1p_minmax"
    = Ok out
    /\ nth_error out 0 = nth_error out 1.
Proof.
  destruct (log_strategy_clamps_and_keeps_order (fun q => q)
              [NaN; Fin (-3); Fin 7] 0 1 NaN (Fin (-3)) eq_refl eq_refl)
    as (out & H & E & _).
  exists out. split; [exact H|]. apply E; [exact I | discriminate].
Defined.

(** ** Rows with the same cells, and columns without a value *)

Module TieFacts.
Import NumFacts NormalizerFacts TableFacts MinmaxFacts StaleFacts.





Lemma one_minus_zeros n :
  Forall (fun x => same x (Fin 1)) (one_minus (zeros n)).
Proof.
  unfold one_minus, zeros. induction n as [|n IH]; simpl; constructor; auto.
  simpl. lra.
Qed.

Lemma length_repeat_missing n : List.length (repeat NaN n) = n.
Proof. apply repeat_length. Qed.

(** A column in which all the cells hold one number scales to zeros. *)
Lemma minmax_constant q n : V2._minmax (repeat (Fin q) n) = zeros n.
Proof.
  rewrite minmax_all_equal; [now rewrite repeat_length|].
  unfold all_equalb.
  assert (F : finite_values (repeat (Fin q) n) = repeat q n)
    by (induction n; simpl; congruence).
  rewrite F. destruct n as [|n]; [reflexivity|]. simpl.
  apply forallb_forall. intros y Hy. apply repeat_spec in Hy. subst y.
  apply Qeq_bool_iff. reflexivity.
Qed.

Lemma minmax_all_missing n : V2._minmax (repeat NaN n) = zeros n.
Proof.
  unfold V2._minmax.
  assert (F : finite_values (repeat NaN n) = [])
    by apply finite_values_all_missing.
  unfold pd_min, reduce. rewrite F. simpl. now rewrite repeat_length.
Qed.


End TieFacts.




(** X25.  When no row has its days since the last update, every row
    gets the staleness score 1 in both scorers: the basic one leaves
    the cells missing and the enriched one fills them with 180, and the
    scaled column is all zeros either way. *)
Theorem no_dates_staleness
  (fetch : string -> string) (df : V2.frame) (df1 : V1.frame) (n : nat) :
  (0 < n)%nat ->
  V2.days_since_last_update df = repeat NaN n ->
  V1.days_since_last_update df1 = Some (repeat NaN n) ->
  (exists stale stale_n,
      V1.stale_filled df1 = Ok stale
      /\ V1._minmax_scale stale = Ok stale_n
      /\ one_minus stale_n = one_minus (zeros n))
  /\ V2.c_staleness_n (V2.score_columns fetch df) = one_minus (zeros n)
  /\ List.length (one_minus (zeros n)) = n
  /\ Forall (fun x => same x (Fin 1)) (one_minus (zeros n)).
Proof.
  intros Hn H2 H1. split; [|split; [|split]].
  - exists (repeat NaN n), (zeros n). split; [|split; [|reflexivity]].
    + unfold V1.stale_filled, V1.stale_fill. rewrite H1.
      rewrite StaleFacts.pd_median_all_missing.
      now rewrite StaleFacts.fillna_all_missing.
    + rewrite NormalizerFacts.minmax_scale_nonempty
        by (destruct n; [lia | discriminate]).
      now rewrite TieFacts.minmax_all_missing.
  - cbn [V2.c_staleness_n V2.score_columns]. rewrite H2.
    unfold V2.stale_filled. rewrite StaleFacts.pd_median_all_missing.
    cbn [isfinite]. rewrite StaleFacts.fillna_all_missing.
    now rewrite TieFacts.minmax_constant.
  - unfold one_minus. now rewrite length_map, NumFacts.length_zeros.
  - apply TieFacts.one_minus_zeros.
Qed.

Lemma no_dates_staleness_witness :
  V2.c_staleness_n
    (V2.score_columns (fun _ => ""%string)
       {| V2.repo := ["a"; "b"]; V2.description := [""; ""]%string;
          V2.stars := [Fin 1; Fin 2]; V2.commits_window := [NaN; NaN];
          V2.contributors := [NaN; NaN];
          V2.issue_resolution_rate := [NaN; NaN];
          V2.days_since_last_update := [NaN; NaN] |})
  = one_minus (zeros 2).
Proof.
  apply (proj1 (proj2 (no_dates_staleness (fun _ => ""%string)
           {| V2.repo := ["a"; "b"]; V2.description := [""; ""]%string;
              V2.stars := [Fin 1; Fin 2]; V2.commits_window := [NaN; NaN];
              V2.contributors := [NaN; NaN];
              V2.issue_resolution_rate := [NaN; NaN];
              V2.days_since_last_update := [NaN; NaN] |}
           {| V1.stars := []; V1.commits_window := [];
              V1.contributors := []; V1.issue_resolution_rate := [];
              V1.days_since_last_update := Some [NaN; NaN] |}
           2%nat (Nat.lt_0_2) eq_refl eq_refl))).
Defined.

(** ** The items of the weight argument *)

Module ItemFacts.
Import WeightFacts.

Local Open Scope string_scope.

Lemma prefix_empty s : prefix "" s = true.
Proof. destruct s; reflexivity. Qed.

(** Whether a character occurs in a text. *)
Lemma contains_char c d s :
  contains (String c "") (String d s)
  = (Ascii.eqb c d || contains (String c "") s).
Proof.
  cbn [contains]. cbn [prefix].
  destruct (ascii_dec c d) as [->|N].
  - now rewrite prefix_empty, Ascii.eqb_refl.
  - destruct (Ascii.eqb c d) eqn:E; [|reflexivity].
    apply Ascii.eqb_eq in E. contradiction.
Qed.

Lemma contains_char_false c d s :
  contains (String c "") (String d s) = false ->
  Ascii.eqb d c = false /\ contains (String c "") s = false.
Proof.
  rewrite contains_char. intro H. apply orb_false_iff in H.
  destruct H as [E H]. split; [|exact H].
  rewrite Ascii.eqb_sym. exact E.
Qed.

(** A text without the separator is its own single piece. *)
Lemma split_free sep s :
  contains (String sep "") s = false -> split sep s = [s].
Proof.
  induction s as [|c s IH]; intro H; [reflexivity|].
  apply contains_char_false in H. destruct H as [E H].
  cbn [split]. rewrite E. now rewrite (IH H).
Qed.

(** The pieces of [a], then the piece [j]. *)
Lemma split_app_last sep a j :
  contains (String sep "") j = false ->
  split sep (a ++ String sep j) = (split sep a ++ [j])%list.
Proof.
  intro H. induction a as [|c a IH].
  - cbn [append split]. rewrite Ascii.eqb_refl. now rewrite (split_free _ _ H).
  - cbn [append split]. rewrite IH.
    destruct (Ascii.eqb c sep); [reflexivity|].
    destruct (split sep a) as [|h t] eqn:E; [|reflexivity].
    exfalso. revert E. apply KeyFacts.split_not_nil.
Qed.

Lemma split_once_free sep s :
  contains (String sep "") s = false -> split_once sep s = None.
Proof.
  induction s as [|c s IH]; intro H; [reflexivity|].
  apply contains_char_false in H. destruct H as [E H].
  cbn [split_once]. rewrite E. now rewrite (IH H).
Qed.

Lemma split_once_first sep k v :
  contains (String sep "") k = false ->
  split_once sep (k ++ String sep v) = Some (k, v).
Proof.
  induction k as [|c k IH]; intro H.
  - cbn [append split_once]. now rewrite Ascii.eqb_refl.
  - apply contains_char_false in H. destruct H as [E H].
    cbn [append split_once]. rewrite E. now rewrite (IH H).
Qed.

(** A text that holds a character that is not a space does not strip to
    the empty text. *)
Lemma lstrip_keeps pre c post :
  isspace c = false ->
  exists pre', lstrip (pre ++ String c post) = pre' ++ String c post.
Proof.
  intro H. induction pre as [|d pre IH].
  - exists "". cbn [append lstrip]. now rewrite H.
  - cbn [append lstrip]. destruct (isspace d); [exact IH|].
    now exists (String d pre).
Qed.

Lemma rstrip_nonempty pre c post :
  isspace c = false -> nonempty (rstrip (pre ++ String c post)) = true.
Proof.
  intro H. induction pre as [|d pre IH].
  - cbn [append rstrip]. destruct (rstrip post); [now rewrite H | reflexivity].
  - cbn [append rstrip].
    destruct (rstrip (pre ++ String c post)); [discriminate | reflexivity].
Qed.

Lemma strip_nonempty pre c post :
  isspace c = false -> nonempty (strip (pre ++ String c post)) = true.
Proof.
  intro H. unfold strip.
  destruct (lstrip_keeps pre c post H) as [pre' ->].
  now apply rstrip_nonempty.
Qed.

Lemma nonempty_app a b : nonempty b = true -> nonempty (a ++ b) = true.
Proof. destruct a, b; simpl; auto. Qed.

Lemma dict_get_set {V : Type} k (v : V) d :
  dict_get k (dict_set k v d) = Some v.
Proof.
  induction d as [|[k0 v0] d IH]; simpl.
  - now rewrite String.eqb_refl.
  - destruct (String.eqb k0 k) eqn:E; simpl; rewrite E; auto.
Qed.

Lemma dict_get_set_other {V : Type} k k' (v : V) d :
  k' <> k -> dict_get k (dict_set k' v d) = dict_get k d.
Proof.
  intro N. induction d as [|[k0 v0] d IH]; simpl.
  - destruct (String.eqb k' k) eqn:E; [|reflexivity].
    apply String.eqb_eq in E. contradiction.
  - destruct (String.eqb k0 k') eqn:E; simpl.
    + apply String.eqb_eq in E. subst k0.
      destruct (String.eqb k' k) eqn:E'; [|reflexivity].
      apply String.eqb_eq in E'. contradiction.
    + destruct (String.eqb k0 k); auto.
Qed.

Section Float.
Variable py_float : string -> option fnum.

(** The overrides of an argument that ends with one more item. *)
Lemma overrides_app arg item :
  contains "," item = false ->
  V1.overrides py_float (arg ++ "," ++ item)
  = V1.parse_item py_float (V1.overrides py_float arg) item.
Proof.
  intro H. unfold V1.overrides.
  change (arg ++ "," ++ item) with (arg ++ String "," item).
  rewrite (split_app_last _ _ _ H), fold_left_app. reflexivity.
Qed.

End Float.

End ItemFacts.

(** X26.  [parse_weights] reads its argument item by item and never
    raises: after an argument that is not empty, one more item that is
    blank, has no equals sign or has a value that [float] refuses changes
    nothing in the weights; and one more item [k=v] whose value [float]
    reads as [x] sets the weight of the key [k], stripped of its spaces,
    to [x] divided by the total, whatever the argument gave that key
    before, and leaves every other key with its value before the
    division. *)
Theorem parse_weights_items
  (py_float : string -> option fnum) (arg item k v : string) (x : fnum) :
  nonempty arg = true ->
  contains "," item = false ->
  contains "," k = false -> contains "," v = false ->
  contains "=" k = false ->
  py_float v = Some x ->
  ((nonempty (strip item) = false
    \/ contains "=" item = false
    \/ (exists k' v', split_once "=" item = Some (k', v')
                      /\ py_float v' = None)) ->
   V1.parse_weights py_float (arg ++ "," ++ item)
   = V1.parse_weights py_float arg)
  /\ (let out := V1.merged py_float (arg ++ "," ++ k ++ "=" ++ v) in
      dict_get (strip k) out = Some x
      /\ dict_get (strip k) (V1.parse_weights py_float (arg ++ "," ++ k ++ "=" ++ v))
         = Some (fdiv x (V1.total out))
      /\ forall k', k' <> strip k ->
           dict_get k' out = dict_get k' (V1.merged py_float arg)).
Proof.
  intros Ha Hi Hk Hv Hke Hx. split.
  - intro Hbad.
    assert (E : V1.overrides py_float (arg ++ "," ++ item)
                = V1.overrides py_float arg).
    { rewrite (ItemFacts.overrides_app py_float arg item Hi).
      unfold V1.parse_item.
      destruct Hbad as [B|[B|(k' & v' & S & F)]].
      - now rewrite B.
      - destruct (negb (nonempty (strip item))); [reflexivity|].
        now rewrite (ItemFacts.split_once_free _ _ B).
      - destruct (negb (nonempty (strip item))); [reflexivity|].
        now rewrite S, F. }
    unfold V1.parse_weights, V1.merged. rewrite E, Ha.
    rewrite ItemFacts.nonempty_app by reflexivity. reflexivity.
  - assert (Hc : contains "," (k ++ "=" ++ v) = false).
    { clear - Hk Hv. induction k as [|c k IH].
      - change ("" ++ "=" ++ v) with (String "=" v).
        rewrite ItemFacts.contains_char. exact Hv.
      - apply ItemFacts.contains_char_false in Hk. destruct Hk as [E Hk].
        change (String c k ++ "=" ++ v) with (String c (k ++ "=" ++ v)).
        rewrite ItemFacts.contains_char, (IH Hk).
        rewrite Ascii.eqb_sym, E. reflexivity. }
    assert (E : V1.overrides py_float (arg ++ "," ++ k ++ "=" ++ v)
                = dict_set (strip k) x (V1.overrides py_float arg)).
    { rewrite (ItemFacts.overrides_app py_float arg _ Hc).
      unfold V1.parse_item.
      change (k ++ "=" ++ v) with (k ++ String "=" v).
      rewrite ItemFacts.strip_nonempty by reflexivity. cbn [negb].
      now rewrite (ItemFacts.split_once_first _ _ _ Hke), Hx. }
    cbv zeta. split; [|split].
    + unfold V1.merged. rewrite WeightFacts.dict_get_merge, E.
      now rewrite ItemFacts.dict_get_set.
    + unfold V1.parse_weights.
      rewrite ItemFacts.nonempty_app by reflexivity. cbn [negb].
      remember (V1.total (V1.merged py_float (arg ++ "," ++ k ++ "=" ++ v)))
        as t eqn:Et.
      rewrite (WeightFacts.dict_get_map (fun w => fdiv w t)).
      unfold V1.merged. rewrite WeightFacts.dict_get_merge, E.
      now rewrite ItemFacts.dict_get_set.
    + intros k' Hk'. unfold V1.merged.
      rewrite !WeightFacts.dict_get_merge, E.
      rewrite ItemFacts.dict_get_set_other by congruence. reflexivity.
Qed.

Lemma parse_weights_items_witness :
  V1.parse_weights V1.float_decimal ("stars=1" ++ "," ++ "bogus")
  = V1.parse_weights V1.float_decimal "stars=1".
Proof.
  apply (proj1 (parse_weights_items V1.float_decimal "stars=1" "bogus"
                  " issues " "3" (Fin 3) eq_refl eq_refl eq_refl eq_refl
                  eq_refl eq_refl)).
  right. left. reflexivity.
Defined.
